(** * Linear and logistic regression ([src/models/models.py])

    A shallow embedding of the two estimators and of the numpy
    primitives they call, with the statements of the specification
    proved about it.

    Modelling conventions.
    - A numpy [float64] is idealised as a real number: [R] of the
      Standard Library.  Rounding, overflow, division by zero, [inf] and
      [nan] are outside the model.
    - An [ndarray] is a 2-D array: a column count and the list of its
      rows.  A Python reference to an array is a location in a heap of
      arrays, so that copying, aliasing and in-place writes are visible.
    - A Python exception is a value of [exn]; a call that can raise
      returns [exn + A].  The functions of numpy and the numeric methods
      of the estimators neither read nor write anything but their
      operands and are functions on arrays; [fit] and [predict] run in a
      state monad over the heap and the attributes of the instance.  The
      state survives an exception, as the objects do in Python.
    - The optimizer [fit] is handed is a parameter: a record of its
      constructor, its [run] and its attribute [w_history]. *)

From stdpp Require Import base list.
From Stdlib Require Import Reals Lra Lia.

(** ** Exceptions *)

Inductive exn : Type :=
| AssertionError
| AttributeError
| ValueError
| TypeError
| LinAlgError
| IndexError
| RuntimeError
| InvalidRef.   (* a reference outside the heap: cannot arise in Python *)

Definition result (A : Type) : Type := (exn + A)%type.

Definition ok {A} (a : A) : result A := inr a.
Definition raise {A} (e : exn) : result A := inl e.

Definition rbind {A B} (r : result A) (k : A -> result B) : result B :=
  match r with
  | inl e => inl e
  | inr a => k a
  end.

Notation "'let?' x ':=' r 'in' k" := (rbind r (fun x => k))
  (at level 10, x name, r at level 100, k at level 200).

(** ** Arrays *)

Record ndarray : Type := NDArray { ncols : nat; rows : list (list R) }.

Definition nrows (A : ndarray) : nat := length (rows A).

Definition shape (A : ndarray) : nat * nat := (nrows A, ncols A).

(** Every row has [ncols] entries. *)
Definition wf (A : ndarray) : Prop :=
  Forall (fun r => length r = ncols A) (rows A).

Definition wfb (A : ndarray) : bool :=
  forallb (fun r => Nat.eqb (length r) (ncols A)) (rows A).

(** [A[i, j]] *)
Definition item (A : ndarray) (i j : nat) : R :=
  nth j (nth i (rows A) []) 0%R.

(** The [r x c] array whose entry [(i, j)] is [g i j]. *)
Definition build (r c : nat) (g : nat -> nat -> R) : ndarray :=
  NDArray c (map (fun i => map (g i) (seq 0 c)) (seq 0 r)).

(** Sum of a list of reals, and a sum over [0 .. n-1]. *)
Definition rsum (l : list R) : R := fold_right Rplus 0%R l.

Definition bigsum (n : nat) (f : nat -> R) : R := rsum (map f (seq 0 n)).

Module np.

Definition copy (A : ndarray) : ndarray := A.

Definition zeros (r c : nat) : ndarray := build r c (fun _ _ => 0%R).

Definition ones (r c : nat) : ndarray := build r c (fun _ _ => 1%R).

(** [np.concatenate([A, B], axis=1)] *)
Definition concatenate1 (A B : ndarray) : result ndarray :=
  if Nat.eqb (nrows A) (nrows B)
  then ok (NDArray (ncols A + ncols B) (zip_with app (rows A) (rows B)))
  else raise ValueError.

Definition transpose (A : ndarray) : ndarray :=
  build (ncols A) (nrows A) (fun i j => item A j i).

(** [np.dot] of two 2-D arrays: the matrix product. *)
Definition dot (A B : ndarray) : result ndarray :=
  if Nat.eqb (ncols A) (nrows B)
  then ok (build (nrows A) (ncols B)
             (fun i j => bigsum (ncols A) (fun k => item A i k * item B k j)%R))
  else raise ValueError.

(** Broadcasting of one dimension: equal extents, or one of them is 1. *)
Definition broadcast_dim (a b : nat) : option nat :=
  if Nat.eqb a b then Some a
  else if Nat.eqb a 1 then Some b
  else if Nat.eqb b 1 then Some a
  else None.

(** Entry [(i, j)] of [A] seen through broadcasting: an extent of 1 is
    repeated. *)
Definition bitem (A : ndarray) (i j : nat) : R :=
  item A (if Nat.eqb (nrows A) 1 then 0 else i)
         (if Nat.eqb (ncols A) 1 then 0 else j).

(** An element-wise binary operator on two arrays, with broadcasting. *)
Definition elementwise (f : R -> R -> R) (A B : ndarray) : result ndarray :=
  match broadcast_dim (nrows A) (nrows B), broadcast_dim (ncols A) (ncols B) with
  | Some r, Some c => ok (build r c (fun i j => f (bitem A i j) (bitem B i j)))
  | _, _ => raise ValueError
  end.

Definition subtract : ndarray -> ndarray -> result ndarray := elementwise Rminus.
Definition divide : ndarray -> ndarray -> result ndarray := elementwise Rdiv.
Definition add : ndarray -> ndarray -> result ndarray := elementwise Rplus.

(** An element-wise unary function, also used for array-with-scalar
    operators ([A / n], [A + eps], [A ** 2]). *)
Definition map (f : R -> R) (A : ndarray) : ndarray :=
  NDArray (ncols A) (List.map (List.map f) (rows A)).

Definition exp (A : ndarray) : ndarray := map Rtrigo_def.exp A.

Definition log (A : ndarray) : ndarray := map ln A.

(** [np.trace(A)]: the sum along the diagonal. *)
Definition trace (A : ndarray) : R :=
  bigsum (Nat.min (nrows A) (ncols A)) (fun i => item A i i).

(** [np.sum(A)]: the sum of all entries. *)
Definition sum (A : ndarray) : R := rsum (List.map rsum (rows A)).

(** [np.sum(A, axis=1, keepdims=True)] *)
Definition sum1 (A : ndarray) : ndarray :=
  NDArray 1 (List.map (fun r => [rsum r]) (rows A)).

(** Maximum of a row that is not empty. *)
Definition row_max (r : list R) : R :=
  match r with
  | [] => 0%R
  | x :: l => fold_left Rmax l x
  end.

(** [np.max(A, axis=1, keepdims=True)]: a reduction over an axis of
    extent 0 has no identity and raises. *)
Definition max1 (A : ndarray) : result ndarray :=
  if Nat.eqb (ncols A) 0 then raise ValueError
  else ok (NDArray 1 (List.map (fun r => [row_max r]) (rows A))).

(** The scan of [argmax]: the running maximum [best] found at [bi] is
    replaced only by a strictly greater entry. *)
Fixpoint argmax_from (best : R) (bi i : nat) (l : list R) : nat :=
  match l with
  | [] => bi
  | x :: l' =>
      if Rlt_dec best x then argmax_from x i (S i) l'
      else argmax_from best bi (S i) l'
  end.

Definition row_argmax (r : list R) : nat :=
  match r with
  | [] => 0
  | x :: l => argmax_from x 0 1 l
  end.

(** [A.argmax(axis=1)] *)
Definition argmax1 (A : ndarray) : result (list nat) :=
  if Nat.eqb (ncols A) 0 then raise ValueError
  else ok (List.map row_argmax (rows A)).

(** [A[i, j] = x], an in-place write; an index out of range raises. *)
Definition setitem (A : ndarray) (i j : nat) (x : R) : result ndarray :=
  if Nat.ltb i (nrows A) && Nat.ltb j (ncols A)
  then ok (NDArray (ncols A) (alter (fun r => <[j := x]> r) i (rows A)))
  else raise IndexError.

(** *** [np.linalg.inv]

    The inverse in exact arithmetic, by cofactors: entry [(i, j)] is the
    cofactor [(j, i)] over the determinant.  A matrix that is not square
    or whose determinant is zero raises [LinAlgError]. *)

Definition drop_nth {A} (j : nat) (l : list A) : list A :=
  take j l ++ drop (S j) l.

Definition minor (M : list (list R)) (i j : nat) : list (list R) :=
  List.map (drop_nth j) (drop_nth i M).

(** Determinant of the [n x n] matrix [M], expanded along its first row. *)
Fixpoint det (n : nat) (M : list (list R)) : R :=
  match n with
  | 0 => 1%R
  | S n' =>
      bigsum n (fun j => (-1) ^ j * nth j (nth 0 M []) 0 * det n' (minor M 0 j))%R
  end.

Definition inv (A : ndarray) : result ndarray :=
  if Nat.eqb (nrows A) (ncols A) then
    let n := nrows A in
    let d := det n (rows A) in
    if Req_EM_T d 0 then raise LinAlgError
    else ok (build n n
               (fun i j => (-1) ^ (i + j) * det (n - 1) (minor (rows A) j i) / d)%R)
  else raise LinAlgError.

End np.

(** A [for] loop over a list of indices, threading the loop's variable
    state and stopping at the first exception. *)
Fixpoint for_each {S : Type} (l : list nat) (body : nat -> S -> result S) (s : S)
  : result S :=
  match l with
  | [] => ok s
  | i :: l' => let? s' := body i s in for_each l' body s'
  end.

(** ** Module-level helpers of [models.py] *)

Definition eps : R := 1e-8%R.

Definition softmax (X : ndarray) : result ndarray :=
  let? m := np.max1 X in
  let? d := np.subtract X m in
  let num := np.exp d in
  let? m' := np.max1 X in
  let? d' := np.subtract X m' in
  let den := np.map (fun x => x + eps)%R (np.sum1 (np.exp d')) in
  np.divide num den.

Definition one_hot (y : ndarray) : result ndarray :=
  let y_one_hot := np.zeros (nrows y) (ncols y) in
  let? pred_labels := np.argmax1 y in
  for_each (seq 0 (nrows y))
    (fun i y_one_hot =>
       match pred_labels !! i with
       | Some j => np.setitem y_one_hot i j 1%R
       | None => raise IndexError
       end)
    y_one_hot.

(** ** The Python object model *)

Definition loc : Type := nat.

Inductive value : Type :=
| VNone
| VArray (l : loc)
| VList (ls : list loc).

(** The attributes of an estimator instance.  [w = None] is the attribute
    not being set at all; [w = Some VNone] is Python's [self.w = None]. *)
Record instance : Type := Instance { add_bias : bool; w : option value }.

Record state : Type := State { heap : list ndarray; self : instance }.

Definition M (A : Type) : Type := state -> result A * state.

Definition ret {A} (a : A) : M A := fun s => (ok a, s).

Definition throw {A} (e : exn) : M A := fun s => (raise e, s).

Definition lift {A} (r : result A) : M A := fun s => (r, s).

Definition bind {A B} (m : M A) (k : A -> M B) : M B :=
  fun s =>
    match m s with
    | (inl e, s') => (inl e, s')
    | (inr a, s') => k a s'
    end.

Notation "'let*' x ':=' m 'in' k" := (bind m (fun x => k))
  (at level 10, x name, m at level 100, k at level 200).

Notation "m ';;;' k" := (bind m (fun _ => k))
  (at level 100, k at level 200, right associativity).

(** Reading through a reference. *)
Definition deref (l : loc) : M ndarray :=
  fun s =>
    match heap s !! l with
    | Some a => (ok a, s)
    | None => (raise InvalidRef, s)
    end.

(** A new array object. *)
Definition new (a : ndarray) : M loc :=
  fun s => (ok (length (heap s)), State (heap s ++ [a]) (self s)).

(** [self.add_bias] *)
Definition get_add_bias : M bool := fun s => (ok (add_bias (self s)), s).

(** [self.w]: reading an attribute that was never set raises. *)
Definition get_w : M value :=
  fun s =>
    match w (self s) with
    | Some v => (ok v, s)
    | None => (raise AttributeError, s)
    end.

(** [self.w = v] *)
Definition with_w (v : value) (s : state) : state :=
  State (heap s) (Instance (add_bias (self s)) (Some v)).

Definition set_w (v : value) : M unit := fun s => (ok tt, with_w v s).

Definition py_assert (b : bool) : M unit :=
  if b then ret tt else throw AssertionError.

(** The array a value denotes when it is used as an operand of [np.dot]. *)
Definition as_array (v : value) : M ndarray :=
  match v with
  | VArray l => deref l
  | _ => throw TypeError
  end.

Definition is_not_None (v : value) : bool :=
  match v with
  | VNone => false
  | _ => true
  end.

(** [np.copy(X)] *)
Definition np_copy (X : loc) : M loc :=
  let* a := deref X in new (np.copy a).

(** [np.concatenate([np.ones((A.shape[0], 1)), A], axis=1)] *)
Definition prepend_ones (A : loc) : M loc :=
  let* a := deref A in
  let* c := lift (np.concatenate1 (np.ones (nrows a) 1) a) in
  new c.

(** [np.dot(A, v)], the result being a new array. *)
Definition np_dot (A : loc) (v : value) : M loc :=
  let* a := deref A in
  let* b := as_array v in
  let* c := lift (np.dot a b) in
  new c.

(** ** The optimizer collaborator

    The optimizer is not part of [models.py]: [fit] receives its class
    and its keyword arguments.  [K] is the type of the keyword arguments
    and [O] the type of an optimizer object.  [opt_new] is the call
    of the class on the keyword arguments; [opt_run] is [optimizer.run],
    which returns the final weights together with the optimizer object
    as [run] left it; [opt_w_history] reads the attribute [w_history]. *)

Definition gradient_fn : Type := ndarray -> ndarray -> ndarray -> result ndarray.

Record optimizer_class (K O : Type) : Type := OptimizerClass {
  opt_new : K -> M O;
  opt_run : O -> gradient_fn -> loc -> loc -> value -> M (value * O);
  opt_w_history : O -> result value
}.

Arguments opt_new {K O}.
Arguments opt_run {K O}.
Arguments opt_w_history {K O}.

(** ** [class LinearRegression] *)

Module LinearRegression.

Definition __init__ (add_bias : bool) : instance :=
  Instance add_bias (Some VNone).

Definition cost_fn (X y w : ndarray) : result R :=
  let? Xw := np.dot X w in
  let? d := np.subtract y Xw in
  ok (0.5 * np.sum (np.map (fun x => x ^ 2) d))%R.

Definition gradient (X y w : ndarray) : result ndarray :=
  let? y_hat := np.dot X w in
  let? d := np.subtract y_hat y in
  let? g := np.dot (np.transpose X) d in
  ok (np.map (fun x => x / INR (nrows X))%R g).

Definition analytic_fit (X y : ndarray) : result ndarray :=
  let? XTX := np.dot (np.transpose X) X in
  let? XTX_inv := np.inv XTX in
  let? XTX_inv_XT := np.dot XTX_inv (np.transpose X) in
  np.dot XTX_inv_XT y.

(** [analytic] is the keyword argument [analytic_fit]: the method has
    that name here. *)
Definition fit {K O} (X y : loc) (analytic : bool)
    (optimizer_class : option (optimizer_class K O)) (optimizer_kwargs : K)
  : M value :=
  let* A := np_copy X in
  let* b := get_add_bias in
  let* A := (if b then prepend_ones A else ret A) in
  if analytic then
    let* a := deref A in
    let* yv := deref y in
    let* wv := lift (analytic_fit a yv) in
    let* lw := new wv in
    set_w (VArray lw) ;;;
    get_w
  else
    match optimizer_class with
    | None => throw AssertionError
    | Some oc =>
        let* a := deref A in
        let* lw := new (np.zeros (ncols a) 1) in
        set_w (VArray lw) ;;;
        let* optimizer := opt_new oc optimizer_kwargs in
        let* w0 := get_w in
        let* r := opt_run oc optimizer gradient A y w0 in
        set_w (fst r) ;;;
        lift (opt_w_history oc (snd r))
    end.

Definition predict (X : loc) (w : value) : M loc :=
  let* sw := get_w in
  py_assert (is_not_None sw) ;;;
  let* A := np_copy X in
  let* b := get_add_bias in
  let* A := (if b then prepend_ones A else ret A) in
  if is_not_None w then np_dot A w
  else
    let* sw := get_w in
    np_dot A sw.

End LinearRegression.

(** ** [class LogisticRegression] *)

Module LogisticRegression.

(** The constructor sets [add_bias] only: the attribute [w] does not
    exist until [fit] assigns it. *)
Definition __init__ (add_bias : bool) : instance :=
  Instance add_bias None.

Definition cost_fn (X y w : ndarray) : result R :=
  let? z := np.dot X w in
  let? zbar := np.max1 z in
  let? yzT := np.dot y (np.transpose z) in
  let? d := np.subtract z zbar in
  let? t := np.add zbar (np.log (np.sum1 (np.exp d))) in
  ok (- np.trace yzT + np.sum t)%R.

Definition gradient (X y w : ndarray) : result ndarray :=
  let? z := np.dot X w in
  let? y_hat := softmax z in
  let? d := np.subtract y_hat y in
  let? g := np.dot (np.transpose X) d in
  ok (np.map (fun x => x / INR (nrows y))%R g).

Definition fit {K O} (X y : loc) (optimizer_class : optimizer_class K O)
    (optimizer_kwargs : K) : M value :=
  let* A := np_copy X in
  let* b := get_add_bias in
  let* A := (if b then prepend_ones A else ret A) in
  let* a := deref A in
  let* yv := deref y in
  let* lw := new (np.zeros (ncols a) (ncols yv)) in
  set_w (VArray lw) ;;;
  let* optimizer := opt_new optimizer_class optimizer_kwargs in
  let* w0 := get_w in
  let* r := opt_run optimizer_class optimizer gradient A y w0 in
  set_w (fst r) ;;;
  lift (opt_w_history optimizer_class (snd r)).

(** [one_hot(softmax(np.dot(A, v)))], the result being a new array. *)
Definition predict_with (A : loc) (v : value) : M loc :=
  let* a := deref A in
  let* b := as_array v in
  let* z := lift (np.dot a b) in
  let* p := lift (softmax z) in
  let* y_preds := lift (one_hot p) in
  new y_preds.

Definition predict (X : loc) (w : value) : M loc :=
  let* A := np_copy X in
  let* b := get_add_bias in
  let* A := (if b then prepend_ones A else ret A) in
  if is_not_None w then predict_with A w
  else
    let* sw := get_w in
    predict_with A sw.

End LogisticRegression.

(** ** Bias augmentation

    The three lines every [fit] and [predict] starts with: [X] is copied,
    and the copy is replaced by a new array with a leading column of ones
    when [add_bias] is set. *)

Definition augmented (add_bias : bool) (a : ndarray) : ndarray :=
  if add_bias then NDArray (1 + ncols a) (List.map (fun r => 1%R :: r) (rows a))
  else a.

(** The location of [A] after the three lines, and the state then. *)
Definition augmented_loc (s : state) : loc :=
  if add_bias (self s) then S (length (heap s)) else length (heap s).

Definition augmented_state (s : state) (a : ndarray) : state :=
  State (heap s ++ (if add_bias (self s) then [a; augmented true a] else [a]))
        (self s).

(** Row [i] of an array. *)
Definition row (A : ndarray) (i : nat) : list R := nth i (rows A) [].

(** ** Example optimizers

    Three small optimizer classes, not part of [models.py], on which the
    statements about [fit] are exercised. *)

(** [heap[l] = a]: an in-place overwrite of a whole array. *)
Definition store (l : loc) (a : ndarray) : M unit :=
  fun s =>
    match heap s !! l with
    | Some _ => (ok tt, State (<[l := a]> (heap s)) (self s))
    | None => (raise InvalidRef, s)
    end.

(** Fixed-step gradient descent: [max_iters] steps [w = w - lr * grad],
    each new [w] a new array appended to [w_history]. *)
Record gd : Type := GD { learning_rate : R; max_iters : nat; w_history : list loc }.

Fixpoint gd_loop (lr : R) (n : nat) (g : gradient_fn) (a yv : ndarray)
    (wl : loc) (hist : list loc) : M (loc * list loc) :=
  match n with
  | 0 => ret (wl, hist)
  | S n' =>
      let* wv := deref wl in
      let* grad := lift (g a yv wv) in
      let* wv' := lift (np.subtract wv (np.map (fun x => lr * x)%R grad)) in
      let* wl' := new wv' in
      gd_loop lr n' g a yv wl' (hist ++ [wl'])
  end.

Definition GradientDescent : optimizer_class (R * nat) gd :=
  OptimizerClass (R * nat) gd
    (fun kw => ret (GD (fst kw) (snd kw) []))
    (fun o g A y w0 =>
       let* a := deref A in
       let* yv := deref y in
       match w0 with
       | VArray wl =>
           let* r := gd_loop (learning_rate o) (max_iters o) g a yv wl [wl] in
           ret (VArray (fst r), GD (learning_rate o) (max_iters o) (snd r))
       | _ => throw TypeError
       end)
    (fun o => ok (VList (w_history o))).

(** An optimizer that works in place: [run] overwrites the design matrix
    it was handed with zeros and returns the initial weights. *)
Definition InPlace : optimizer_class unit (list loc) :=
  OptimizerClass unit (list loc)
    (fun _ => ret [])
    (fun o g A y w0 =>
       let* a := deref A in
       store A (np.zeros (nrows a) (ncols a)) ;;;
       match w0 with
       | VArray wl => ret (w0, [wl])
       | _ => throw TypeError
       end)
    (fun o => ok (VList o)).

(** An optimizer whose [run] raises. *)
Definition Failing : optimizer_class unit unit :=
  OptimizerClass unit unit
    (fun _ => ret tt)
    (fun o g A y w0 => throw RuntimeError)
    (fun o => ok (VList [])).

(** The state in which a gradient-based [fit] constructs the optimizer:
    [X] was copied and augmented, and a zero matrix with [k] columns and
    a row per column of the design matrix was stored in [w]. *)
Definition initial_weights_loc (s : state) (a : ndarray) : loc :=
  length (heap (augmented_state s a)).

Definition before_optimizer (s : state) (a : ndarray) (k : nat) : state :=
  with_w (VArray (initial_weights_loc s a))
    (State (heap (augmented_state s a)
            ++ [np.zeros (ncols (augmented (add_bias (self s)) a)) k])
           (self s)).

(** An optimizer that leaves the estimator alone: neither its
    constructor nor [run] assigns an attribute of the instance. *)
Definition leaves_instance_alone {K O} (oc : optimizer_class K O) : Prop :=
  (forall kw s r s', opt_new oc kw s = (r, s') -> self s' = self s) /\
  (forall o g A y w0 s r s',
      opt_run oc o g A y w0 s = (r, s') -> self s' = self s).

(** An optimizer that writes only what it is handed: the constructor
    changes no array that exists, and [run] changes no array that exists
    other than the design matrix and the initial weights it was called
    on. *)
Definition writes_only_its_arguments {K O} (oc : optimizer_class K O) : Prop :=
  (forall kw s r s' (l : loc) (x : ndarray),
      opt_new oc kw s = (r, s') ->
      heap s !! l = Some x -> heap s' !! l = Some x) /\
  (forall o g A y w0 s r s' (l : loc) (x : ndarray),
      opt_run oc o g A y w0 s = (r, s') ->
      l <> A -> VArray l <> w0 ->
      heap s !! l = Some x -> heap s' !! l = Some x).

(** The array [one_hot] holds when its loop has handled the rows before
    [k]: a one at the [argmax] of each of them, zeros elsewhere. *)
Definition one_hot_upto (y : ndarray) (k : nat) : ndarray :=
  build (nrows y) (ncols y)
    (fun i j => if Nat.ltb i k && Nat.eqb j (np.row_argmax (row y i)) then 1%R else 0%R).

(** A computation that leaves the array at [l] as it is, however it
    ends. *)
Definition preserves {A} (l : loc) (m : M A) : Prop :=
  forall s r s' (x : ndarray),
    m s = (r, s') -> heap s !! l = Some x -> heap s' !! l = Some x.

(** [w] with [t] added to its entry [(j, k)]: the point at which the
    partial derivative of the cost with respect to that entry looks. *)
Definition shift_entry (w : ndarray) (j k : nat) (t : R) : ndarray :=
  build (nrows w) (ncols w)
    (fun a b => item w a b + (if Nat.eqb a j && Nat.eqb b k then t else 0))%R.

(** The cost as a number, for the calculus; 0 stands for an exception. *)
Definition cost_value (X y w : ndarray) : R :=
  match LinearRegression.cost_fn X y w with
  | inr c => c
  | inl _ => 0%R
  end.

(** ** Example data *)

Definition X4 : ndarray := NDArray 1 [[4%R]].

Definition W_swap : ndarray := NDArray 2 [[0; 1]; [1; 0]]%R.

Definition X123 : ndarray := NDArray 1 [[1]; [2]; [3]]%R.

Definition y246 : ndarray := NDArray 1 [[2]; [4]; [6]]%R.

(** [X123] with its bias column, and the zero weights [fit] starts from. *)
Definition A123 : ndarray := NDArray 2 [[1; 1]; [1; 2]; [1; 3]]%R.

Definition w00 : ndarray := NDArray 1 [[0]; [0]]%R.

(** The classes of [X123] as indicator rows: 1 and 2 in the first class,
    3 in the second. *)
Definition y_classes : ndarray := NDArray 2 [[1; 0]; [1; 0]; [0; 1]]%R.

(** A computation that assigns no attribute of the instance, however it
    ends. *)
Definition keeps_instance {A} (m : M A) : Prop :=
  forall s r s', m s = (r, s') -> self s' = self s.

(** The weights [predict] uses: the override when one is given, the
    stored weights otherwise. *)
Definition weights_used (v stored : value) : value :=
  if is_not_None v then v else stored.

(** Entry [(i, j)] of a linear prediction from the features [a]: with a
    bias the first row of the weights is the intercept. *)
Definition linear_map (add_bias : bool) (a wu : ndarray) (i j : nat) : R :=
  if add_bias
  then (item wu 0 j + bigsum (ncols a) (fun k => item a i k * item wu (S k) j))%R
  else bigsum (ncols a) (fun k => item a i k * item wu k j)%R.

(** The weights of the line [y = 2x], and an instance fitted to them whose
    heap holds the input [X4] and these weights. *)
Definition w02 : ndarray := NDArray 1 [[0]; [2]]%R.

Definition fitted_line : state :=
  State [X4; w02; W_swap] (Instance true (Some (VArray 1))).




(** * Properties *)

(** ** Running the monad *)

Lemma bind_ok {A B} (m : M A) (k : A -> M B) s a s' :
  m s = (ok a, s') -> bind m k s = k a s'.
Proof. unfold bind. intros ->. reflexivity. Qed.

Lemma deref_ok l a s : heap s !! l = Some a -> deref l s = (ok a, s).
Proof. unfold deref. intros ->. reflexivity. Qed.

(** An allocation leaves every array that exists where it is. *)
Lemma lookup_alloc (h : list ndarray) (l : loc) (a : ndarray) (new_arrays : list ndarray) :
  h !! l = Some a -> (h ++ new_arrays) !! l = Some a.
Proof. intros H. apply lookup_app_l_Some. exact H. Qed.

Lemma lookup_fresh (h : list ndarray) (a : ndarray) (rest : list ndarray) :
  (h ++ a :: rest) !! length h = Some a.
Proof. apply list_lookup_middle. reflexivity. Qed.

(** ** Bias augmentation *)

Lemma map_const_seq {A} (c : A) (k n : nat) :
  List.map (fun _ => c) (seq k n) = replicate n c.
Proof.
  revert k. induction n as [|n IH]; intros k; cbn; [reflexivity|].
  f_equal. apply IH.
Qed.

Lemma ones_column n : rows (np.ones n 1) = replicate n [1%R].
Proof. unfold np.ones, build. cbn [rows]. apply map_const_seq. Qed.

Lemma zip_ones (l : list (list R)) :
  zip_with app (replicate (length l) [1%R]) l = List.map (fun r => 1%R :: r) l.
Proof. induction l as [|r l IH]; cbn; [reflexivity|]. f_equal. exact IH. Qed.

Lemma concatenate_ones (a : ndarray) :
  np.concatenate1 (np.ones (nrows a) 1) a = ok (augmented true a).
Proof.
  unfold np.concatenate1, augmented, nrows at 1.
  rewrite ones_column, length_replicate, Nat.eqb_refl.
  unfold np.ones at 1. cbn [ncols build]. unfold nrows.
  rewrite zip_ones. reflexivity.
Qed.

Lemma augmentation {B} (X : loc) (a : ndarray) (s : state) (k : loc -> M B) :
  heap s !! X = Some a ->
  bind (np_copy X)
    (fun A => bind get_add_bias
       (fun b => bind (if b then prepend_ones A else ret A) k)) s
  = k (augmented_loc s) (augmented_state s a).
Proof.
  intros HX. unfold np_copy.
  rewrite (bind_ok _ _ s (length (heap s)) (State (heap s ++ [a]) (self s))).
  2:{ rewrite (bind_ok _ _ s a s) by (apply deref_ok; exact HX). reflexivity. }
  unfold get_add_bias at 1, bind at 1. cbn [self].
  unfold augmented_loc, augmented_state.
  destruct (add_bias (self s)).
  - unfold prepend_ones, bind, deref, lift, new, ok. cbn beta iota. cbn [heap self].
    rewrite lookup_fresh. unfold np.copy, ok. cbn beta iota.
    rewrite concatenate_ones. unfold ok. cbn beta iota. cbn [heap self].
    rewrite length_app. cbn [length]. rewrite Nat.add_1_r.
    rewrite <- app_assoc. reflexivity.
  - reflexivity.
Qed.

Lemma augmented_state_lookup s a :
  heap (augmented_state s a) !! augmented_loc s
  = Some (augmented (add_bias (self s)) a).
Proof.
  unfold augmented_state, augmented_loc. cbn [heap].
  destruct (add_bias (self s)).
  - change (heap s ++ [a; augmented true a])
      with (heap s ++ [a] ++ [augmented true a]).
    rewrite app_assoc.
    replace (S (length (heap s))) with (length (heap s ++ [a]))
      by (rewrite length_app; cbn; lia).
    apply lookup_fresh.
  - apply lookup_fresh.
Qed.

Lemma augmented_state_old s a l x :
  heap s !! l = Some x -> heap (augmented_state s a) !! l = Some x.
Proof. intros H. apply lookup_alloc. exact H. Qed.

Lemma augmented_loc_fresh s : length (heap s) <= augmented_loc s.
Proof. unfold augmented_loc. destruct (add_bias (self s)); lia. Qed.

(** ** [predict] before [fit] *)

Lemma linear_predict_unfitted (b : bool) (h : list ndarray) (X : loc) (v : value) :
  LinearRegression.predict X v (State h (LinearRegression.__init__ b))
  = (raise AssertionError, State h (LinearRegression.__init__ b)).
Proof. reflexivity. Qed.

Lemma logistic_predict_unfitted (b : bool) (h : list ndarray) (X : loc) (a : ndarray) :
  h !! X = Some a ->
  LogisticRegression.predict X VNone (State h (LogisticRegression.__init__ b))
  = (raise AttributeError,
     augmented_state (State h (LogisticRegression.__init__ b)) a).
Proof.
  intros HX. unfold LogisticRegression.predict.
  rewrite (augmentation X a) by exact HX.
  reflexivity.
Qed.

(** C1, as stated, fails for [LogisticRegression]: on a new instance
    [predict] without an override does not fail with an assertion error
    but with an attribute error, the attribute [w] not existing. *)
Lemma logistic_predict_unfitted_not_assertion :
  fst (LogisticRegression.predict 0 VNone
         (State [X4] (LogisticRegression.__init__ true)))
  = raise AttributeError
  /\ fst (LogisticRegression.predict 0 VNone
            (State [X4] (LogisticRegression.__init__ true)))
     <> raise AssertionError.
Proof. split; [reflexivity | discriminate]. Qed.

(** C1, amended: on an instance on which [fit] was never called,
    [predict] without an override fails for both models and returns no
    value.  [LinearRegression.predict] fails with an assertion error
    before it does anything else; [LogisticRegression.predict] has no
    assertion and fails with an attribute error when it reads the missing
    attribute [w], after [X] was copied and augmented. *)
Theorem predict_before_fit (b : bool) (h : list ndarray) (X : loc) (a : ndarray) :
  h !! X = Some a ->
  LinearRegression.predict X VNone (State h (LinearRegression.__init__ b))
  = (raise AssertionError, State h (LinearRegression.__init__ b))
  /\ LogisticRegression.predict X VNone (State h (LogisticRegression.__init__ b))
     = (raise AttributeError,
        augmented_state (State h (LogisticRegression.__init__ b)) a).
Proof.
  intros HX. split.
  - apply linear_predict_unfitted.
  - apply logistic_predict_unfitted. exact HX.
Qed.

Lemma predict_before_fit_witness :
  LinearRegression.predict 0 VNone (State [X4] (LinearRegression.__init__ true))
  = (raise AssertionError, State [X4] (LinearRegression.__init__ true))
  /\ LogisticRegression.predict 0 VNone (State [X4] (LogisticRegression.__init__ true))
     = (raise AttributeError,
        augmented_state (State [X4] (LogisticRegression.__init__ true)) X4).
Proof. apply (predict_before_fit true [X4] 0 X4). reflexivity. Defined.

(** ** [fit] without an optimizer *)

Lemma fit_requires_optimizer_body {K O : Type} (s : state) (X y : loc)
    (a : ndarray) (kw : K) :
  heap s !! X = Some a ->
  LinearRegression.fit (O := O) X y false None kw s
  = (raise AssertionError, augmented_state s a).
Proof.
  intros HX. unfold LinearRegression.fit.
  rewrite (augmentation X a) by exact HX.
  reflexivity.
Qed.

(** C6: [LinearRegression.fit] with [analytic_fit=False] and
    [optimizer_class=None] fails with an assertion error.  Nothing but the
    copy of [X] and its augmentation was done by then: the instance is as
    it was and no optimizer was constructed or run. *)
Theorem fit_requires_optimizer {K O : Type} (s : state) (X y : loc) (a : ndarray)
    (kw : K) :
  heap s !! X = Some a ->
  LinearRegression.fit (O := O) X y false None kw s
  = (raise AssertionError, augmented_state s a)
  /\ self (augmented_state s a) = self s
  /\ (forall (l : loc) (x : ndarray),
        heap s !! l = Some x -> heap (augmented_state s a) !! l = Some x).
Proof.
  intros HX. split; [|split].
  - unfold LinearRegression.fit.
    rewrite (augmentation X a) by exact HX.
    reflexivity.
  - reflexivity.
  - intros l x H. apply augmented_state_old. exact H.
Qed.

Lemma fit_requires_optimizer_witness :
  LinearRegression.fit (O := unit) 0 1 false None tt
    (State [X4; X4] (LinearRegression.__init__ true))
  = (raise AssertionError,
     augmented_state (State [X4; X4] (LinearRegression.__init__ true)) X4)
  /\ self (augmented_state (State [X4; X4] (LinearRegression.__init__ true)) X4)
     = LinearRegression.__init__ true
  /\ (forall (l : loc) (x : ndarray),
        [X4; X4] !! l = Some x ->
        heap (augmented_state (State [X4; X4] (LinearRegression.__init__ true)) X4)
          !! l = Some x).
Proof. apply (fit_requires_optimizer (O := unit)). reflexivity. Defined.

(** ** Arrays: entries and shapes *)

Lemma nth_map_seq {A} (f : nat -> A) (k n i : nat) (d : A) :
  i < n -> nth i (List.map f (seq k n)) d = f (k + i).
Proof.
  revert k i. induction n as [|n IH]; intros k i Hi; [lia|].
  destruct i as [|i]; cbn.
  - f_equal. lia.
  - rewrite IH by lia. f_equal. lia.
Qed.

Lemma nth_map_in {A B} (f : A -> B) (l : list A) (i : nat) (d : B) (d' : A) :
  i < length l -> nth i (List.map f l) d = f (nth i l d').
Proof.
  revert i. induction l as [|x l IH]; intros i Hi; cbn in Hi; [lia|].
  destruct i as [|i]; cbn; [reflexivity|]. apply IH. lia.
Qed.

Lemma length_map_seq {A} (f : nat -> A) (k n : nat) :
  length (List.map f (seq k n)) = n.
Proof. rewrite length_map, length_seq. reflexivity. Qed.

Lemma wfb_wf (A : ndarray) : wfb A = true -> wf A.
Proof.
  unfold wfb, wf. rewrite forallb_forall. intros H.
  apply Forall_forall. intros r Hr. apply Nat.eqb_eq, H, list_elem_of_In, Hr.
Qed.

Lemma nrows_build r c g : nrows (build r c g) = r.
Proof. unfold nrows, build. cbn [rows]. apply length_map_seq. Qed.

Lemma ncols_build r c g : ncols (build r c g) = c.
Proof. reflexivity. Qed.

Lemma wf_build r c g : wf (build r c g).
Proof.
  unfold wf, build. cbn [rows ncols].
  apply Forall_forall. intros x Hx.
  apply list_elem_of_In, in_map_iff in Hx. destruct Hx as [i [<- _]].
  apply length_map_seq.
Qed.

Lemma item_build r c g i j :
  i < r -> j < c -> item (build r c g) i j = g i j.
Proof.
  intros Hi Hj. unfold item, build. cbn [rows].
  rewrite (nth_map_seq _ 0 r i) by exact Hi.
  rewrite (nth_map_seq _ 0 c j) by exact Hj.
  reflexivity.
Qed.

Lemma map_seq_ext {A} (f g : nat -> A) (k n : nat) :
  (forall i, k <= i < k + n -> f i = g i) ->
  List.map f (seq k n) = List.map g (seq k n).
Proof.
  revert k. induction n as [|n IH]; intros k H; cbn; [reflexivity|].
  f_equal; [apply H; lia | apply IH; intros i Hi; apply H; lia].
Qed.

(** Two arrays built from functions that agree inside the shape are the
    same array. *)
Lemma build_ext r c g g' :
  (forall i j, i < r -> j < c -> g i j = g' i j) -> build r c g = build r c g'.
Proof.
  intros H. unfold build. f_equal.
  apply map_seq_ext. intros i Hi.
  apply map_seq_ext. intros j Hj.
  apply H; lia.
Qed.



Lemma wf_row_length (A : ndarray) (i : nat) :
  wf A -> i < nrows A -> length (nth i (rows A) []) = ncols A.
Proof.
  unfold wf, nrows. intros Hwf Hi.
  rewrite Forall_forall in Hwf. apply Hwf.
  apply list_elem_of_In, nth_In. exact Hi.
Qed.

Lemma bitem_item (A : ndarray) (i j : nat) :
  i < nrows A -> j < ncols A -> np.bitem A i j = item A i j.
Proof.
  intros Hi Hj. unfold np.bitem.
  destruct (Nat.eqb_spec (nrows A) 1) as [E1|_];
    destruct (Nat.eqb_spec (ncols A) 1) as [E2|_];
    repeat (f_equal; try lia).
Qed.

(** Broadcasting a column against the columns of a wider array. *)
Lemma bitem_column (A : ndarray) (i j : nat) :
  i < nrows A -> ncols A = 1 -> np.bitem A i j = item A i 0.
Proof.
  intros Hi Hc. unfold np.bitem. rewrite Hc. cbn [Nat.eqb].
  destruct (Nat.eqb_spec (nrows A) 1) as [E1|_]; f_equal; lia.
Qed.

Lemma broadcast_dim_same a : np.broadcast_dim a a = Some a.
Proof. unfold np.broadcast_dim. rewrite Nat.eqb_refl. reflexivity. Qed.

Lemma broadcast_dim_one a : np.broadcast_dim a 1 = Some a.
Proof.
  unfold np.broadcast_dim.
  destruct (Nat.eqb_spec a 1) as [->|_]; [reflexivity|].
  reflexivity.
Qed.

(** An element-wise operator on two arrays of one shape. *)
Lemma elementwise_same_shape f (A B : ndarray) :
  nrows A = nrows B -> ncols A = ncols B ->
  np.elementwise f A B
  = ok (build (nrows A) (ncols A) (fun i j => f (item A i j) (item B i j))).
Proof.
  intros Hr Hc. unfold np.elementwise.
  rewrite <- Hr, <- Hc, !broadcast_dim_same.
  f_equal. apply build_ext. intros i j Hi Hj.
  rewrite !bitem_item by lia. reflexivity.
Qed.

(** An element-wise operator on an array and a column of the same height:
    the column is repeated along the rows. *)
Lemma elementwise_column f (A B : ndarray) :
  nrows A = nrows B -> ncols B = 1 ->
  np.elementwise f A B
  = ok (build (nrows A) (ncols A) (fun i j => f (item A i j) (item B i 0))).
Proof.
  intros Hr Hc. unfold np.elementwise.
  rewrite <- Hr, Hc, broadcast_dim_same, broadcast_dim_one.
  f_equal. apply build_ext. intros i j Hi Hj.
  rewrite bitem_item by lia. rewrite bitem_column by lia. reflexivity.
Qed.

Lemma map_build f r c g :
  np.map f (build r c g) = build r c (fun i j => f (g i j)).
Proof.
  unfold np.map, build. cbn [rows ncols]. f_equal.
  rewrite map_map. apply map_ext. intros i. apply map_map.
Qed.

(** ** Sums and maxima *)

Section Sums.

Local Open Scope R_scope.

Lemma rsum_cons (x : R) (l : list R) : rsum (x :: l) = x + rsum l.
Proof. reflexivity. Qed.

Lemma bigsum_ext (n : nat) (f g : nat -> R) :
  (forall i, (i < n)%nat -> f i = g i) -> bigsum n f = bigsum n g.
Proof.
  intros H. unfold bigsum. f_equal. apply map_seq_ext. intros i Hi. apply H. lia.
Qed.

Lemma rsum_map_scale {A} (c : R) (f : A -> R) (l : list A) :
  rsum (List.map (fun x => f x * c) l) = rsum (List.map f l) * c.
Proof.
  induction l as [|x l IH]; cbn [List.map]; [cbn; lra|].
  rewrite !rsum_cons, IH. lra.
Qed.

Lemma rsum_map_plus {A} (f g : A -> R) (l : list A) :
  rsum (List.map (fun x => f x + g x) l)
  = rsum (List.map f l) + rsum (List.map g l).
Proof.
  induction l as [|x l IH]; cbn [List.map]; [cbn; lra|].
  rewrite !rsum_cons, IH. lra.
Qed.

Lemma rsum_map_nonneg {A} (f : A -> R) (l : list A) :
  (forall x, 0 <= f x) -> 0 <= rsum (List.map f l).
Proof.
  intros H. induction l as [|x l IH]; cbn [List.map]; [cbn; lra|].
  rewrite rsum_cons. specialize (H x). lra.
Qed.

Lemma rsum_map_ge_term {A} (f : A -> R) (l : list A) (x : A) :
  (forall y, 0 <= f y) -> In x l -> f x <= rsum (List.map f l).
Proof.
  intros H. induction l as [|y l IH]; cbn [List.map In]; [tauto|].
  rewrite rsum_cons. intros [->|Hin].
  - pose proof (rsum_map_nonneg f l H). lra.
  - specialize (IH Hin). specialize (H y). lra.
Qed.


Lemma fold_left_Rmax_ge (l : list R) (x : R) :
  x <= fold_left Rmax l x /\ (forall y, In y l -> y <= fold_left Rmax l x).
Proof.
  revert x. induction l as [|z l IH]; intros x; cbn [fold_left In].
  - split; [lra | tauto].
  - destruct (IH (Rmax x z)) as [H1 H2].
    pose proof (Rmax_l x z). pose proof (Rmax_r x z).
    split; [lra|]. intros y [<-|Hy]; [lra | apply H2; exact Hy].
Qed.

Lemma fold_left_Rmax_in (l : list R) (x : R) :
  fold_left Rmax l x = x \/ In (fold_left Rmax l x) l.
Proof.
  revert x. induction l as [|z l IH]; intros x; cbn [fold_left In];
    [left; reflexivity|].
  destruct (IH (Rmax x z)) as [H|H].
  - rewrite H. unfold Rmax. destruct (Rle_dec x z); auto.
  - right. right. exact H.
Qed.

(** The maximum of a row that is not empty is one of its entries and
    bounds them all. *)
Lemma row_max_spec (r : list R) :
  r <> [] -> In (np.row_max r) r /\ (forall y, In y r -> y <= np.row_max r).
Proof.
  destruct r as [|x l]; [congruence|]. intros _. cbn [np.row_max].
  destruct (fold_left_Rmax_ge l x) as [H1 H2].
  split.
  - destruct (fold_left_Rmax_in l x) as [->|H]; [left; reflexivity | right; exact H].
  - intros y [<-|Hy]; [exact H1 | apply H2; exact Hy].
Qed.


End Sums.

(** ** [softmax] *)

Section Softmax.

Local Open Scope R_scope.

Lemma max1_column (X : ndarray) :
  (0 < ncols X)%nat ->
  exists m, np.max1 X = ok m /\ nrows m = nrows X /\ ncols m = 1%nat /\
    forall i, (i < nrows X)%nat -> item m i 0 = np.row_max (row X i).
Proof.
  intros Hc. unfold np.max1.
  destruct (Nat.eqb_spec (ncols X) 0) as [E|_]; [lia|].
  eexists. split; [reflexivity|]. unfold nrows, item, row. cbn [rows ncols].
  split; [apply length_map|]. split; [reflexivity|].
  intros i Hi.
  rewrite (nth_map_in _ _ _ _ []) by exact Hi. reflexivity.
Qed.

Lemma sum1_build r c g :
  np.sum1 (build r c g) = build r 1 (fun i _ => bigsum c (g i)).
Proof.
  unfold np.sum1, build, bigsum. cbn [rows]. f_equal.
  rewrite map_map. reflexivity.
Qed.

(** [softmax] in closed form: entry [(i, j)] is the exponential of
    [X[i, j]] less the maximum of row [i], over the sum of these
    exponentials along the row plus [eps]. *)
Lemma softmax_closed_form (X : ndarray) :
  wf X -> (0 < ncols X)%nat ->
  softmax X
  = ok (build (nrows X) (ncols X)
          (fun i j =>
             exp (item X i j - np.row_max (row X i))
             / (bigsum (ncols X) (fun k => exp (item X i k - np.row_max (row X i)))
                + eps))).
Proof.
  intros Hwf Hc. unfold softmax.
  destruct (max1_column X Hc) as (m & -> & Hr & Hm & Hitem).
  cbn [rbind ok]. unfold np.subtract.
  rewrite (elementwise_column _ X m) by (symmetry + idtac; assumption).
  cbn [rbind ok]. unfold np.exp, np.divide.
  rewrite !map_build, sum1_build, map_build.
  rewrite elementwise_column
    by (rewrite ?nrows_build, ?ncols_build; reflexivity).
  f_equal. rewrite nrows_build, ncols_build.
  apply build_ext. intros i j Hi Hj.
  rewrite !item_build by lia.
  rewrite Hitem by exact Hi.
  f_equal.
Qed.

Lemma row_build r c g i :
  (i < r)%nat -> row (build r c g) i = List.map (g i) (seq 0 c).
Proof.
  intros Hi. unfold row, build. cbn [rows].
  rewrite (nth_map_seq _ 0 r i) by exact Hi. reflexivity.
Qed.



End Softmax.

Section SoftmaxRows.

Local Open Scope R_scope.




End SoftmaxRows.

(** ** [one_hot] *)

Section OneHot.

Local Open Scope R_scope.

(** The scan keeps the first index at which the greatest entry seen so
    far stands. *)
Lemma argmax_from_spec (r : list R) (l pre : list R) (best : R) (bi : nat) :
  r = pre ++ l -> (bi < length pre)%nat -> nth bi r 0 = best ->
  (forall k, (k < length pre)%nat -> nth k r 0 <= best) ->
  (forall k, (k < bi)%nat -> nth k r 0 < best) ->
  let j := np.argmax_from best bi (length pre) l in
  (j < length r)%nat /\
  (forall k, (k < length r)%nat -> nth k r 0 <= nth j r 0) /\
  (forall k, (k < j)%nat -> nth k r 0 < nth j r 0).
Proof.
  revert pre best bi. induction l as [|x l IH]; intros pre best bi Hr Hbi Hbest Hle Hlt.
  - cbn. rewrite app_nil_r in Hr. subst r. rewrite Hbest. auto.
  - cbn [np.argmax_from].
    assert (Hr' : r = (pre ++ [x]) ++ l) by (rewrite <- app_assoc; exact Hr).
    assert (Hx : nth (length pre) r 0 = x).
    { rewrite Hr. rewrite app_nth2 by lia. rewrite Nat.sub_diag. reflexivity. }
    assert (Hlen : length (pre ++ [x]) = S (length pre))
      by (rewrite length_app; cbn; lia).
    destruct (Rlt_dec best x) as [Hgt|Hngt].
    + rewrite <- Hlen. apply IH; try assumption.
      * lia.
      * intros k Hk. rewrite Hlen in Hk.
        destruct (Nat.eq_dec k (length pre)) as [->|Hne]; [lra|].
        specialize (Hle k ltac:(lia)). lra.
      * intros k Hk. specialize (Hle k Hk). lra.
    + rewrite <- Hlen. apply IH; try assumption.
      * lia.
      * intros k Hk. rewrite Hlen in Hk.
        destruct (Nat.eq_dec k (length pre)) as [->|Hne]; [lra|].
        apply Hle. lia.
Qed.

(** [argmax] of a row that is not empty: the first index of its
    maximum. *)
Lemma row_argmax_spec (r : list R) :
  r <> [] ->
  (np.row_argmax r < length r)%nat /\
  (forall k, (k < length r)%nat -> nth k r 0 <= nth (np.row_argmax r) r 0) /\
  (forall k, (k < np.row_argmax r)%nat -> nth k r 0 < nth (np.row_argmax r) r 0).
Proof.
  destruct r as [|x l]; [congruence|]. intros _. cbn [np.row_argmax].
  apply (argmax_from_spec (x :: l) l [x] x 0).
  - reflexivity.
  - cbn. lia.
  - reflexivity.
  - intros k Hk. cbn in Hk. replace k with 0%nat by lia. cbn. lra.
  - intros k Hk. lia.
Qed.

Lemma lookup_map_nth {A B} (f : A -> B) (l : list A) (i : nat) (d : A) :
  (i < length l)%nat -> List.map f l !! i = Some (f (nth i l d)).
Proof.
  revert i. induction l as [|x l IH]; intros i Hi; cbn in Hi; [lia|].
  destruct i as [|i]; cbn; [reflexivity|]. apply IH. lia.
Qed.

Lemma insert_map_seq (f : nat -> R) (k c j : nat) (x : R) :
  <[j := x]> (List.map f (seq k c))
  = List.map (fun j' => if Nat.eqb j' (k + j) then x else f j') (seq k c).
Proof.
  revert k j. induction c as [|c IH]; intros k j; [reflexivity|].
  destruct j as [|j]; cbn.
  - rewrite Nat.add_0_r, Nat.eqb_refl. f_equal.
    apply map_seq_ext. intros i Hi.
    destruct (Nat.eqb_spec i k); [lia | reflexivity].
  - destruct (Nat.eqb_spec k (k + S j)); [lia|]. f_equal.
    rewrite IH. replace (S k + j)%nat with (k + S j)%nat by lia. reflexivity.
Qed.

Lemma alter_map_seq {A} (f : nat -> A) (h : A -> A) (k n i : nat) :
  alter h i (List.map f (seq k n))
  = List.map (fun i' => if Nat.eqb i' (k + i) then h (f i') else f i') (seq k n).
Proof.
  revert k i. induction n as [|n IH]; intros k i; [reflexivity|].
  destruct i as [|i]; cbn.
  - rewrite Nat.add_0_r, Nat.eqb_refl. f_equal.
    apply map_seq_ext. intros i Hi.
    destruct (Nat.eqb_spec i k); [lia | reflexivity].
  - destruct (Nat.eqb_spec k (k + S i)); [lia|]. f_equal.
    rewrite IH. replace (S k + i)%nat with (k + S i)%nat by lia. reflexivity.
Qed.

(** An in-place write inside the shape changes that entry and no other. *)
Lemma setitem_build r c g i j x :
  (i < r)%nat -> (j < c)%nat ->
  np.setitem (build r c g) i j x
  = ok (build r c (fun i' j' => if Nat.eqb i' i && Nat.eqb j' j then x else g i' j')).
Proof.
  intros Hi Hj. unfold np.setitem. rewrite nrows_build, ncols_build.
  destruct (Nat.ltb_spec i r); [|lia]. destruct (Nat.ltb_spec j c); [|lia].
  cbn [andb]. f_equal. unfold build. cbn [rows ncols]. f_equal.
  rewrite alter_map_seq. apply map_seq_ext. intros i' Hi'. cbn [Nat.add].
  destruct (Nat.eqb_spec i' i) as [->|Hne]; cbn [andb].
  - rewrite insert_map_seq. reflexivity.
  - reflexivity.
Qed.

Lemma one_hot_loop (y : ndarray) (m k : nat) :
  wf y -> (0 < ncols y)%nat -> (k + m = nrows y)%nat ->
  for_each (seq k m)
    (fun i y_one_hot =>
       match List.map np.row_argmax (rows y) !! i with
       | Some j => np.setitem y_one_hot i j 1
       | None => raise IndexError
       end)
    (one_hot_upto y k)
  = ok (one_hot_upto y (nrows y)).
Proof.
  intros Hwf Hc. revert k. induction m as [|m IH]; intros k Hk.
  - cbn. replace k with (nrows y) by lia. reflexivity.
  - cbn [seq for_each].
    rewrite (lookup_map_nth _ _ _ []) by (unfold nrows in Hk; lia).
    fold (row y k).
    assert (Hrow : length (row y k) = ncols y)
      by (apply wf_row_length; [exact Hwf | lia]).
    assert (Hne : row y k <> []) by (intros E; rewrite E in Hrow; cbn in Hrow; lia).
    destruct (row_argmax_spec (row y k) Hne) as [Hlt _].
    unfold one_hot_upto at 1.
    rewrite setitem_build by lia. cbn [rbind ok].
    replace (build _ _ _) with (one_hot_upto y (S k)); [apply IH; lia|].
    unfold one_hot_upto. apply build_ext. intros i j Hi Hj.
    destruct (Nat.eqb_spec i k) as [->|Hne'].
    + destruct (Nat.ltb_spec k (S k)); [|lia]. destruct (Nat.ltb_spec k k); [lia|].
      cbn [andb]. destruct (Nat.eqb j _); reflexivity.
    + destruct (Nat.ltb_spec i (S k)), (Nat.ltb_spec i k); try lia; reflexivity.
Qed.

(** [one_hot] in closed form. *)
Lemma one_hot_closed_form (y : ndarray) :
  wf y -> (0 < ncols y)%nat ->
  one_hot y
  = ok (build (nrows y) (ncols y)
          (fun i j => if Nat.eqb j (np.row_argmax (row y i)) then 1 else 0)).
Proof.
  intros Hwf Hc. unfold one_hot, np.argmax1.
  destruct (Nat.eqb_spec (ncols y) 0) as [E|_]; [lia|]. cbn [rbind ok].
  replace (np.zeros (nrows y) (ncols y)) with (one_hot_upto y 0)
    by (apply build_ext; reflexivity).
  rewrite (one_hot_loop y (nrows y) 0 Hwf Hc) by lia.
  unfold ok. f_equal. apply build_ext. intros i j Hi Hj.
  destruct (Nat.ltb_spec i (nrows y)); [reflexivity | lia].
Qed.

End OneHot.

Section OneHotRows.

Local Open Scope R_scope.

(** C8: for every 2-D array [Y] with at least one column, [one_hot Y]
    has the shape of [Y], and every row of it holds exactly one 1, all its
    other entries being 0; the 1 stands at the index of the row's maximum,
    and at the first such index when the maximum occurs more than once. *)
Theorem one_hot_rows (Y : ndarray) :
  wf Y -> (0 < ncols Y)%nat ->
  exists Z,
    one_hot Y = ok Z /\ wf Z /\ shape Z = shape Y /\
    forall i, (i < nrows Y)%nat ->
      exists j, (j < ncols Y)%nat /\
        item Z i j = 1 /\
        (forall j', (j' < ncols Y)%nat -> j' <> j -> item Z i j' = 0) /\
        (forall j', (j' < ncols Y)%nat -> item Y i j' <= item Y i j) /\
        (forall j', (j' < j)%nat -> item Y i j' < item Y i j).
Proof.
  intros Hwf Hc. eexists. split; [apply one_hot_closed_form; assumption|].
  split; [apply wf_build|].
  split; [unfold shape; rewrite nrows_build; reflexivity|].
  intros i Hi.
  assert (Hrow : length (row Y i) = ncols Y) by (apply wf_row_length; assumption).
  assert (Hne : row Y i <> []) by (intros E; rewrite E in Hrow; cbn in Hrow; lia).
  destruct (row_argmax_spec (row Y i) Hne) as (Hlt & Hmax & Hfirst).
  exists (np.row_argmax (row Y i)). rewrite Hrow in Hlt, Hmax.
  split; [exact Hlt|]. split; [|split; [|split]].
  - rewrite item_build by assumption. rewrite Nat.eqb_refl. reflexivity.
  - intros j' Hj' Hne'. rewrite item_build by assumption.
    destruct (Nat.eqb_spec j' (np.row_argmax (row Y i))); [contradiction | reflexivity].
  - intros j' Hj'. apply Hmax. exact Hj'.
  - intros j' Hj'. apply Hfirst. exact Hj'.
Qed.

Lemma one_hot_rows_witness :
  exists Z,
    one_hot (NDArray 2 [[0.5; 0.5]; [0.2; 0.8]]) = ok Z /\ wf Z /\
    shape Z = shape (NDArray 2 [[0.5; 0.5]; [0.2; 0.8]]) /\
    forall i, (i < 2)%nat ->
      exists j, (j < 2)%nat /\
        item Z i j = 1 /\
        (forall j', (j' < 2)%nat -> j' <> j -> item Z i j' = 0) /\
        (forall j', (j' < 2)%nat ->
           item (NDArray 2 [[0.5; 0.5]; [0.2; 0.8]]) i j'
           <= item (NDArray 2 [[0.5; 0.5]; [0.2; 0.8]]) i j) /\
        (forall j', (j' < j)%nat ->
           item (NDArray 2 [[0.5; 0.5]; [0.2; 0.8]]) i j'
           < item (NDArray 2 [[0.5; 0.5]; [0.2; 0.8]]) i j).
Proof.
  apply (one_hot_rows (NDArray 2 [[0.5; 0.5]; [0.2; 0.8]])).
  - apply wfb_wf. reflexivity.
  - cbn. lia.
Defined.

(** On a tie the first index wins: the row [0.5, 0.5] becomes [1, 0]. *)
Example one_hot_tie :
  one_hot (NDArray 2 [[0.5; 0.5]]) = ok (NDArray 2 [[1; 0]]).
Proof.
  rewrite one_hot_closed_form by (apply wfb_wf; reflexivity) || (cbn; lia).
  cbv [build nrows ncols rows length seq List.map row nth
       np.row_argmax np.argmax_from].
  destruct (Rlt_dec 0.5 0.5) as [H|_]; [lra|]. reflexivity.
Qed.

End OneHotRows.

(** ** [predict] with an override *)

Lemma nrows_augmented b a : nrows (augmented b a) = nrows a.
Proof. destruct b; [|reflexivity]. unfold augmented, nrows. cbn [rows]. apply length_map. Qed.

Lemma as_array_ok l a s : heap s !! l = Some a -> as_array (VArray l) s = (ok a, s).
Proof. apply deref_ok. Qed.

Lemma predict_with_ok (A : loc) (v : value) (s : state) (a wv p : ndarray) :
  heap s !! A = Some a -> as_array v s = (ok wv, s) ->
  (let? z := np.dot a wv in let? q := softmax z in one_hot q) = ok p ->
  LogisticRegression.predict_with A v s
  = (ok (length (heap s)), State (heap s ++ [p]) (self s)).
Proof.
  intros HA Hv Hp. unfold LogisticRegression.predict_with.
  rewrite (bind_ok _ _ s a s) by (apply deref_ok; exact HA).
  rewrite (bind_ok _ _ s wv s) by exact Hv.
  unfold bind, lift.
  destruct (np.dot a wv) as [e|z]; [discriminate|]. cbn [rbind] in Hp.
  destruct (softmax z) as [e|q]; [discriminate|]. cbn [rbind] in Hp.
  rewrite Hp. reflexivity.
Qed.

(** The scores, their [softmax] and its [one_hot] exist whenever the
    weights have as many rows as the design matrix has columns, and at
    least one column. *)
Lemma class_predictions_exist (a wv : ndarray) :
  ncols a = nrows wv -> 0 < ncols wv ->
  exists p,
    (let? z := np.dot a wv in let? q := softmax z in one_hot q) = ok p /\
    wf p /\ shape p = (nrows a, ncols wv).
Proof.
  intros Hs Hc. unfold np.dot. rewrite Hs, Nat.eqb_refl. cbn [rbind ok].
  rewrite softmax_closed_form by (apply wf_build || exact Hc). cbn [rbind ok].
  rewrite one_hot_closed_form by (apply wf_build || exact Hc).
  eexists. split; [reflexivity|]. split; [apply wf_build|].
  unfold shape. rewrite !nrows_build. reflexivity.
Qed.

(** C10: on an instance of [LogisticRegression] that was never fitted,
    [predict] with an override [w] checks nothing and returns
    [one_hot(softmax(A.w))], [A] being the input with its bias column;
    [LinearRegression.predict] asserts the stored weights even then and
    fails. *)
Theorem predict_with_override (b : bool) (h : list ndarray) (X lw : loc)
    (a wv : ndarray) :
  h !! X = Some a -> h !! lw = Some wv ->
  ncols (augmented b a) = nrows wv -> 0 < ncols wv ->
  (exists p l s',
      (let? z := np.dot (augmented b a) wv in let? q := softmax z in one_hot q)
      = ok p /\
      shape p = (nrows a, ncols wv) /\
      LogisticRegression.predict X (VArray lw)
        (State h (LogisticRegression.__init__ b)) = (ok l, s') /\
      heap s' !! l = Some p /\
      self s' = LogisticRegression.__init__ b) /\
  LinearRegression.predict X (VArray lw) (State h (LinearRegression.__init__ b))
  = (raise AssertionError, State h (LinearRegression.__init__ b)).
Proof.
  intros HX Hw Hs Hc. split; [|apply linear_predict_unfitted].
  destruct (class_predictions_exist (augmented b a) wv Hs Hc) as (p & Hp & _ & Hshape).
  rewrite nrows_augmented in Hshape.
  set (s := State h (LogisticRegression.__init__ b)).
  exists p, (length (heap (augmented_state s a))),
    (State (heap (augmented_state s a) ++ [p]) (self (augmented_state s a))).
  split; [exact Hp|]. split; [exact Hshape|]. split; [|split].
  - unfold LogisticRegression.predict.
    rewrite (augmentation X a) by exact HX.
    cbn [is_not_None].
    apply (predict_with_ok _ _ _ (augmented b a) wv p).
    + apply (augmented_state_lookup s a).
    + apply as_array_ok, augmented_state_old. exact Hw.
    + exact Hp.
  - cbn [heap]. apply lookup_fresh.
  - reflexivity.
Qed.

Lemma predict_with_override_witness :
  (exists p l s',
      (let? z := np.dot (augmented true X4) (W_swap) in
       let? q := softmax z in one_hot q)
      = ok p /\
      shape p = (1, 2) /\
      LogisticRegression.predict 0 (VArray 1)
        (State [X4; W_swap] (LogisticRegression.__init__ true))
      = (ok l, s') /\
      heap s' !! l = Some p /\
      self s' = LogisticRegression.__init__ true) /\
  LinearRegression.predict 0 (VArray 1)
    (State [X4; W_swap] (LinearRegression.__init__ true))
  = (raise AssertionError,
     State [X4; W_swap] (LinearRegression.__init__ true)).
Proof.
  apply (predict_with_override true [X4; W_swap] 0 1
           X4 (W_swap)).
  - reflexivity.
  - reflexivity.
  - reflexivity.
  - cbn. lia.
Defined.

(** ** What a gradient-based [fit] returns and stores *)

Lemma before_optimizer_w s a k :
  w (self (before_optimizer s a k)) = Some (VArray (initial_weights_loc s a)).
Proof. reflexivity. Qed.

Lemma before_optimizer_weights s a k :
  heap (before_optimizer s a k) !! initial_weights_loc s a
  = Some (np.zeros (ncols (augmented (add_bias (self s)) a)) k).
Proof. unfold before_optimizer, initial_weights_loc. cbn [heap with_w]. apply lookup_fresh. Qed.

Lemma before_optimizer_design s a k :
  heap (before_optimizer s a k) !! augmented_loc s
  = Some (augmented (add_bias (self s)) a).
Proof.
  unfold before_optimizer. cbn [heap with_w].
  apply lookup_alloc, augmented_state_lookup.
Qed.

Lemma before_optimizer_old s a k l x :
  heap s !! l = Some x -> heap (before_optimizer s a k) !! l = Some x.
Proof.
  intros H. unfold before_optimizer. cbn [heap with_w].
  apply lookup_alloc, augmented_state_old. exact H.
Qed.

(** The gradient path of [LinearRegression.fit], up to the construction
    of the optimizer. *)
Lemma linear_fit_gradient_path {K O} (oc : optimizer_class K O) (kw : K)
    (s : state) (X y : loc) (a : ndarray) :
  heap s !! X = Some a ->
  LinearRegression.fit X y false (Some oc) kw s
  = bind (opt_new oc kw)
      (fun optimizer => bind get_w
         (fun w0 => bind (opt_run oc optimizer LinearRegression.gradient
                            (augmented_loc s) y w0)
            (fun r => bind (set_w (fst r))
               (fun _ => lift (opt_w_history oc (snd r))))))
      (before_optimizer s a 1).
Proof.
  intros HX. unfold LinearRegression.fit.
  rewrite (augmentation X a) by exact HX.
  rewrite (bind_ok _ _ _ (augmented (add_bias (self s)) a) (augmented_state s a))
    by (apply deref_ok, augmented_state_lookup).
  reflexivity.
Qed.

(** The same for [LogisticRegression.fit], whose initial weights have a
    column per column of [y]. *)
Lemma logistic_fit_gradient_path {K O} (oc : optimizer_class K O) (kw : K)
    (s : state) (X y : loc) (a yv : ndarray) :
  heap s !! X = Some a -> heap (augmented_state s a) !! y = Some yv ->
  LogisticRegression.fit X y oc kw s
  = bind (opt_new oc kw)
      (fun optimizer => bind get_w
         (fun w0 => bind (opt_run oc optimizer LogisticRegression.gradient
                            (augmented_loc s) y w0)
            (fun r => bind (set_w (fst r))
               (fun _ => lift (opt_w_history oc (snd r))))))
      (before_optimizer s a (ncols yv)).
Proof.
  intros HX Hy. unfold LogisticRegression.fit.
  rewrite (augmentation X a) by exact HX.
  rewrite (bind_ok _ _ _ (augmented (add_bias (self s)) a) (augmented_state s a))
    by (apply deref_ok, augmented_state_lookup).
  rewrite (bind_ok _ _ _ yv (augmented_state s a))
    by (apply deref_ok; exact Hy).
  reflexivity.
Qed.

Lemma optimizer_phase {K O} (oc : optimizer_class K O) (kw : K) (g : gradient_fn)
    (A y : loc) (s1 s2 s3 : state) (o o' : O) (w0 w_final hist : value) :
  opt_new oc kw s1 = (ok o, s2) ->
  w (self s2) = Some w0 ->
  opt_run oc o g A y w0 s2 = (ok (w_final, o'), s3) ->
  opt_w_history oc o' = ok hist ->
  bind (opt_new oc kw)
    (fun optimizer => bind get_w
       (fun w0 => bind (opt_run oc optimizer g A y w0)
          (fun r => bind (set_w (fst r))
             (fun _ => lift (opt_w_history oc (snd r)))))) s1
  = (ok hist, with_w w_final s3).
Proof.
  intros Hnew Hw Hrun Hhist.
  rewrite (bind_ok _ _ _ o s2) by exact Hnew.
  rewrite (bind_ok _ _ _ w0 s2) by (unfold get_w; rewrite Hw; reflexivity).
  rewrite (bind_ok _ _ _ (w_final, o') s3) by exact Hrun.
  unfold bind, set_w, lift. cbn [fst snd]. rewrite Hhist. reflexivity.
Qed.

(** C5: a gradient-based [fit] returns the optimizer's [w_history], not
    the final weights; the weights [run] returned are what it stores in
    [self.w].  This holds for [LinearRegression.fit] with
    [analytic_fit=False] and for [LogisticRegression.fit], whatever the
    optimizer. *)
Theorem gradient_fit_returns_history {K O} (oc : optimizer_class K O) (kw : K)
    (s : state) (X y : loc) (a yv : ndarray) :
  heap s !! X = Some a -> heap s !! y = Some yv ->
  (forall o s2 w0 w_final o' s3 hist,
      opt_new oc kw (before_optimizer s a 1) = (ok o, s2) ->
      w (self s2) = Some w0 ->
      opt_run oc o LinearRegression.gradient (augmented_loc s) y w0 s2
      = (ok (w_final, o'), s3) ->
      opt_w_history oc o' = ok hist ->
      LinearRegression.fit X y false (Some oc) kw s = (ok hist, with_w w_final s3)
      /\ w (self (with_w w_final s3)) = Some w_final) /\
  (forall o s2 w0 w_final o' s3 hist,
      opt_new oc kw (before_optimizer s a (ncols yv)) = (ok o, s2) ->
      w (self s2) = Some w0 ->
      opt_run oc o LogisticRegression.gradient (augmented_loc s) y w0 s2
      = (ok (w_final, o'), s3) ->
      opt_w_history oc o' = ok hist ->
      LogisticRegression.fit X y oc kw s = (ok hist, with_w w_final s3)
      /\ w (self (with_w w_final s3)) = Some w_final).
Proof.
  intros HX Hy. split.
  - intros o s2 w0 w_final o' s3 hist Hnew Hw Hrun Hhist.
    split; [|reflexivity].
    rewrite (linear_fit_gradient_path oc kw s X y a HX).
    apply (optimizer_phase oc kw _ _ _ _ s2 s3 o o' w0); assumption.
  - intros o s2 w0 w_final o' s3 hist Hnew Hw Hrun Hhist.
    split; [|reflexivity].
    rewrite (logistic_fit_gradient_path oc kw s X y a yv HX
               (augmented_state_old s a y yv Hy)).
    apply (optimizer_phase oc kw _ _ _ _ s2 s3 o o' w0); assumption.
Qed.

Lemma gradient_fit_returns_history_witness :
  (exists s3,
      LinearRegression.fit 0 1 false (Some GradientDescent) (0.1%R, 1)
        (State [X123; y246] (LinearRegression.__init__ true))
      = (ok (VList [4; 5]), with_w (VArray 5) s3)
      /\ w (self (with_w (VArray 5) s3)) = Some (VArray 5)) /\
  (exists s3,
      LogisticRegression.fit 0 1 GradientDescent (0.1%R, 1)
        (State [X123; y_classes] (LogisticRegression.__init__ true))
      = (ok (VList [4; 5]), with_w (VArray 5) s3)
      /\ w (self (with_w (VArray 5) s3)) = Some (VArray 5)).
Proof.
  split.
  - destruct (gradient_fit_returns_history GradientDescent (0.1%R, 1)
                (State [X123; y246] (LinearRegression.__init__ true))
                0 1 X123 y246 eq_refl eq_refl) as [HL _].
    eexists. eapply HL; reflexivity.
  - destruct (gradient_fit_returns_history GradientDescent (0.1%R, 1)
                (State [X123; y_classes] (LogisticRegression.__init__ true))
                0 1 X123 y_classes eq_refl eq_refl) as [_ HG].
    eexists. eapply HG; reflexivity.
Defined.

(** ** The stored weights before and after [fit] *)

(** After the optimizer was constructed and run, however that ended,
    [self.w] is the array [fit] stored before constructing the optimizer,
    or what [run] returned. *)
Lemma optimizer_phase_weights {K O} (oc : optimizer_class K O) (kw : K)
    (g : gradient_fn) (A y lw : loc) (s1 s' : state) (r : result value) :
  leaves_instance_alone oc ->
  w (self s1) = Some (VArray lw) ->
  bind (opt_new oc kw)
    (fun optimizer => bind get_w
       (fun w0 => bind (opt_run oc optimizer g A y w0)
          (fun r => bind (set_w (fst r))
             (fun _ => lift (opt_w_history oc (snd r)))))) s1
  = (r, s') ->
  w (self s') = Some (VArray lw) \/
  exists o s2 w_final o' s3,
    opt_new oc kw s1 = (ok o, s2) /\
    opt_run oc o g A y (VArray lw) s2 = (ok (w_final, o'), s3) /\
    w (self s') = Some w_final.
Proof.
  intros [Hnew Hrun] Hw. unfold bind at 1.
  destruct (opt_new oc kw s1) as [[e|o] s2] eqn:E1.
  - intros [= <- <-]. left. rewrite (Hnew _ _ _ _ E1). exact Hw.
  - assert (Hw2 : w (self s2) = Some (VArray lw))
      by (rewrite (Hnew _ _ _ _ E1); exact Hw).
    rewrite (bind_ok _ _ _ (VArray lw) s2)
      by (unfold get_w; rewrite Hw2; reflexivity).
    unfold bind at 1.
    destruct (opt_run oc o g A y (VArray lw) s2) as [[e|[w_final o']] s3] eqn:E2.
    + intros [= <- <-]. left. rewrite (Hrun _ _ _ _ _ _ _ _ E2). exact Hw2.
    + unfold bind, set_w, lift. cbn [fst snd]. intros [= <- <-].
      right. exists o, s2, w_final, o', s3. auto.
Qed.

(** C2, as stated, fails twice.  A [fit] of [LinearRegression] whose
    optimizer raises leaves [w] set to the zero matrix it stored before
    it constructed the optimizer, not [None]; and a new
    [LogisticRegression] has no attribute [w] at all, rather than one
    that is [None]. *)
Lemma weights_not_None_counterexample :
  let r := LinearRegression.fit 0 1 false (Some Failing) tt
             (State [X123; y246] (LinearRegression.__init__ true)) in
  (fst r = raise RuntimeError /\
   w (self (snd r)) = Some (VArray 4) /\
   heap (snd r) !! 4 = Some (NDArray 1 [[0]; [0]]%R) /\
   w (self (snd r)) <> Some VNone) /\
  w (LogisticRegression.__init__ true) <> Some VNone.
Proof. cbn. repeat split; discriminate. Qed.

(** C2, amended.  A [LinearRegression] has [w = None] from construction;
    a [fit] that fails in the analytic solution or at the assertion on
    [optimizer_class] leaves the instance as it was, so [w] is still
    [None] then.  On the gradient path [fit] stores a zero matrix in [w]
    before it constructs the optimizer: however the call ends, also when
    the constructor or [run] raises, [w] is then that array or what [run]
    returned.  A [LogisticRegression] has no attribute [w] from
    construction until its first [fit], which stores the zero matrix in
    the same way. *)
Theorem weights_until_fit {K O} (oc : optimizer_class K O) (kw : K) (b : bool)
    (s : state) (X y : loc) (a yv : ndarray) :
  heap s !! X = Some a -> heap s !! y = Some yv ->
  leaves_instance_alone oc ->
  (w (LinearRegression.__init__ b) = Some VNone /\
   w (LogisticRegression.__init__ b) = None) /\
  (forall (ocopt : option (optimizer_class K O)) e s',
      LinearRegression.fit X y true ocopt kw s = (raise e, s') -> self s' = self s) /\
  (exists s',
      LinearRegression.fit (O := O) X y false None kw s = (raise AssertionError, s')
      /\ self s' = self s) /\
  (forall r s',
      LinearRegression.fit X y false (Some oc) kw s = (r, s') ->
      w (self s') = Some (VArray (initial_weights_loc s a)) \/
      exists o s2 w_final o' s3,
        opt_new oc kw (before_optimizer s a 1) = (ok o, s2) /\
        opt_run oc o LinearRegression.gradient (augmented_loc s) y
          (VArray (initial_weights_loc s a)) s2 = (ok (w_final, o'), s3) /\
        w (self s') = Some w_final) /\
  (forall r s',
      LogisticRegression.fit X y oc kw s = (r, s') ->
      w (self s') = Some (VArray (initial_weights_loc s a)) \/
      exists o s2 w_final o' s3,
        opt_new oc kw (before_optimizer s a (ncols yv)) = (ok o, s2) /\
        opt_run oc o LogisticRegression.gradient (augmented_loc s) y
          (VArray (initial_weights_loc s a)) s2 = (ok (w_final, o'), s3) /\
        w (self s') = Some w_final).
Proof.
  intros HX Hy Halone.
  split; [split; reflexivity|]. split; [|split; [|split]].
  - intros ocopt e s'. unfold LinearRegression.fit.
    rewrite (augmentation X a) by exact HX.
    rewrite (bind_ok _ _ _ (augmented (add_bias (self s)) a) (augmented_state s a))
      by (apply deref_ok, augmented_state_lookup).
    rewrite (bind_ok _ _ _ yv (augmented_state s a))
      by (apply deref_ok, augmented_state_old; exact Hy).
    unfold bind, lift.
    destruct (LinearRegression.analytic_fit _ yv) as [e'|wv].
    + intros [= <- <-]. reflexivity.
    + cbn. discriminate.
  - exists (augmented_state s a). split; [|reflexivity].
    apply fit_requires_optimizer_body. exact HX.
  - intros r s'. rewrite (linear_fit_gradient_path oc kw s X y a HX).
    apply optimizer_phase_weights; [exact Halone | reflexivity].
  - intros r s'. rewrite (logistic_fit_gradient_path oc kw s X y a yv HX
               (augmented_state_old s a y yv Hy)).
    apply optimizer_phase_weights; [exact Halone | reflexivity].
Qed.

Lemma failing_leaves_instance_alone : leaves_instance_alone Failing.
Proof.
  split.
  - intros kw s r s' [= _ <-]. reflexivity.
  - intros o g A y w0 s r s' [= _ <-]. reflexivity.
Qed.

Lemma weights_until_fit_witness :
  w (self (snd (LinearRegression.fit 0 1 false (Some Failing) tt
                  (State [X123; y246] (LinearRegression.__init__ true)))))
  = Some (VArray 4) \/
  exists o s2 w_final o' s3,
    opt_new Failing tt
      (before_optimizer (State [X123; y246] (LinearRegression.__init__ true)) X123 1)
    = (ok o, s2) /\
    opt_run Failing o LinearRegression.gradient 3 1 (VArray 4) s2
    = (ok (w_final, o'), s3) /\
    w (self (snd (LinearRegression.fit 0 1 false (Some Failing) tt
                    (State [X123; y246] (LinearRegression.__init__ true)))))
    = Some w_final.
Proof.
  pose proof (weights_until_fit Failing tt true
                (State [X123; y246] (LinearRegression.__init__ true))
                0 1 X123 y246 eq_refl eq_refl failing_leaves_instance_alone)
    as (_ & _ & _ & H & _).
  apply (H (fst (LinearRegression.fit 0 1 false (Some Failing) tt
                   (State [X123; y246] (LinearRegression.__init__ true))))).
  reflexivity.
Defined.

(** ** The caller's arrays *)

Lemma preserves_ret {A} l (a : A) : preserves l (ret a).
Proof. intros s r s' x [= _ <-] H. exact H. Qed.

Lemma preserves_throw {A} l e : preserves l (throw (A := A) e).
Proof. intros s r s' x [= _ <-] H. exact H. Qed.

Lemma preserves_lift {A} l (r : result A) : preserves l (lift r).
Proof. intros s r' s' x [= _ <-] H. exact H. Qed.

Lemma preserves_deref l l' : preserves l (deref l').
Proof.
  intros s r s' x. unfold deref.
  destruct (heap s !! l'); intros [= _ <-] H; exact H.
Qed.

Lemma preserves_new l a : preserves l (new a).
Proof. intros s r s' x [= _ <-] H. cbn [heap]. apply lookup_alloc. exact H. Qed.

Lemma preserves_get_w l : preserves l get_w.
Proof.
  intros s r s' x. unfold get_w.
  destruct (w (self s)); intros [= _ <-] H; exact H.
Qed.

Lemma preserves_set_w l v : preserves l (set_w v).
Proof. intros s r s' x [= _ <-] H. exact H. Qed.

Lemma preserves_bind {A B} l (m : M A) (k : A -> M B) :
  preserves l m -> (forall a, preserves l (k a)) -> preserves l (bind m k).
Proof.
  intros Hm Hk s r s' x. unfold bind.
  destruct (m s) as [[e|a] s1] eqn:E.
  - intros [= _ <-] H. exact (Hm _ _ _ _ E H).
  - intros E' H. exact (Hk a _ _ _ _ E' (Hm _ _ _ _ E H)).
Qed.

Lemma preserves_as_array l v : preserves l (as_array v).
Proof. destruct v; [apply preserves_throw | apply preserves_deref | apply preserves_throw]. Qed.

Create HintDb preserves.

#[local] Hint Resolve preserves_ret preserves_throw preserves_lift preserves_deref
  preserves_new preserves_get_w preserves_set_w preserves_as_array : preserves.

Ltac preserves_steps :=
  repeat first
    [ apply preserves_bind; [|intros ?]
    | match goal with
      | |- preserves _ (if ?b then _ else _) => destruct b
      end
    | solve [auto with preserves] ].

Lemma preserves_get_add_bias l : preserves l get_add_bias.
Proof. intros s r s' x [= _ <-] H. exact H. Qed.

Lemma preserves_py_assert l b : preserves l (py_assert b).
Proof. destruct b; [apply preserves_ret | apply preserves_throw]. Qed.

Lemma preserves_np_copy l X : preserves l (np_copy X).
Proof. unfold np_copy. preserves_steps. Qed.

Lemma preserves_prepend_ones l A : preserves l (prepend_ones A).
Proof. unfold prepend_ones. preserves_steps. Qed.

#[local] Hint Resolve preserves_get_add_bias preserves_py_assert preserves_np_copy
  preserves_prepend_ones : preserves.

Lemma preserves_np_dot l A v : preserves l (np_dot A v).
Proof. unfold np_dot. preserves_steps. Qed.

Lemma preserves_predict_with l A v : preserves l (LogisticRegression.predict_with A v).
Proof. unfold LogisticRegression.predict_with. preserves_steps. Qed.

(** Constructing and running an optimizer that writes only what it is
    handed leaves alone every array that is neither the design matrix nor
    the initial weights. *)
Lemma preserves_optimizer_phase {K O} (oc : optimizer_class K O) (kw : K)
    (g : gradient_fn) (A y lw l : loc) (s1 s' : state) (r : result value)
    (x : ndarray) :
  writes_only_its_arguments oc -> leaves_instance_alone oc ->
  w (self s1) = Some (VArray lw) -> l <> A -> l <> lw ->
  bind (opt_new oc kw)
    (fun optimizer => bind get_w
       (fun w0 => bind (opt_run oc optimizer g A y w0)
          (fun r => bind (set_w (fst r))
             (fun _ => lift (opt_w_history oc (snd r)))))) s1
  = (r, s') ->
  heap s1 !! l = Some x -> heap s' !! l = Some x.
Proof.
  intros [Wnew Wrun] [Inew _] Hw HA Hlw. unfold bind at 1.
  destruct (opt_new oc kw s1) as [[e|o] s2] eqn:E1.
  - intros [= _ <-] H. exact (Wnew _ _ _ _ _ _ E1 H).
  - assert (Hw2 : w (self s2) = Some (VArray lw))
      by (rewrite (Inew _ _ _ _ E1); exact Hw).
    rewrite (bind_ok _ _ _ (VArray lw) s2)
      by (unfold get_w; rewrite Hw2; reflexivity).
    unfold bind at 1.
    destruct (opt_run oc o g A y (VArray lw) s2) as [[e|[w_final o']] s3] eqn:E2;
      intros E3 H.
    + injection E3 as _ <-.
      apply (Wrun _ _ _ _ _ _ _ _ l x E2); [exact HA | congruence |].
      exact (Wnew _ _ _ _ _ _ E1 H).
    + unfold bind, set_w, lift in E3. cbn [fst snd] in E3. injection E3 as _ <-.
      cbn [heap with_w].
      apply (Wrun _ _ _ _ _ _ _ _ l x E2); [exact HA | congruence |].
      exact (Wnew _ _ _ _ _ _ E1 H).
Qed.

Lemma lookup_in_heap (h : list ndarray) (l : loc) (x : ndarray) :
  h !! l = Some x -> l < length h.
Proof. intros H. apply lookup_lt_is_Some. exists x. exact H. Qed.

Lemma initial_weights_loc_fresh s a : length (heap s) < initial_weights_loc s a.
Proof.
  unfold initial_weights_loc, augmented_state. cbn [heap].
  rewrite length_app. destruct (add_bias (self s)); cbn; lia.
Qed.

Lemma linear_predict_preserves l (X : loc) (v : value) :
  preserves l (LinearRegression.predict X v).
Proof.
  unfold LinearRegression.predict. preserves_steps; apply preserves_np_dot.
Qed.

Lemma logistic_predict_preserves l (X : loc) (v : value) :
  preserves l (LogisticRegression.predict X v).
Proof.
  unfold LogisticRegression.predict.
  preserves_steps; apply preserves_predict_with.
Qed.

Lemma linear_analytic_fit_preserves {K O} l (ocopt : option (optimizer_class K O))
    (kw : K) (X y : loc) :
  preserves l (LinearRegression.fit X y true ocopt kw).
Proof. unfold LinearRegression.fit. preserves_steps. Qed.

Lemma linear_fit_preserves {K O} (ocopt : option (optimizer_class K O)) (kw : K)
    (analytic : bool) (s : state) (X y : loc) (a : ndarray) :
  match ocopt with
  | Some oc => writes_only_its_arguments oc /\ leaves_instance_alone oc
  | None => True
  end ->
  heap s !! X = Some a ->
  heap (snd (LinearRegression.fit X y analytic ocopt kw s)) !! X = Some a.
Proof.
  intros Hoc HX.
  destruct (LinearRegression.fit X y analytic ocopt kw s) as [r s'] eqn:E.
  cbn [snd]. destruct analytic.
  - exact (linear_analytic_fit_preserves X ocopt kw X y _ _ _ _ E HX).
  - destruct ocopt as [oc|].
    + destruct Hoc as [Hwrites Halone].
      rewrite (linear_fit_gradient_path oc kw s X y a HX) in E.
      pose proof (lookup_in_heap _ _ _ HX) as Hlt.
      pose proof (augmented_loc_fresh s). pose proof (initial_weights_loc_fresh s a).
      refine (preserves_optimizer_phase oc kw _ _ _ (initial_weights_loc s a) X
                _ _ _ a Hwrites Halone (before_optimizer_w s a 1) _ _ E _);
        [lia | lia | apply before_optimizer_old; exact HX].
    + rewrite (fit_requires_optimizer_body s X y a kw HX) in E.
      injection E as _ <-. apply augmented_state_old. exact HX.
Qed.

Lemma logistic_fit_preserves {K O} (oc : optimizer_class K O) (kw : K)
    (s : state) (X y : loc) (a : ndarray) :
  writes_only_its_arguments oc -> leaves_instance_alone oc ->
  heap s !! X = Some a ->
  heap (snd (LogisticRegression.fit X y oc kw s)) !! X = Some a.
Proof.
  intros Hwrites Halone HX.
  destruct (LogisticRegression.fit X y oc kw s) as [r s'] eqn:E. cbn [snd].
  destruct (heap (augmented_state s a) !! y) as [yv|] eqn:Hy.
  - rewrite (logistic_fit_gradient_path oc kw s X y a yv HX Hy) in E.
    pose proof (lookup_in_heap _ _ _ HX) as Hlt.
    pose proof (augmented_loc_fresh s). pose proof (initial_weights_loc_fresh s a).
    refine (preserves_optimizer_phase oc kw _ _ _ (initial_weights_loc s a) X
              _ _ _ a Hwrites Halone (before_optimizer_w s a (ncols yv)) _ _ E _);
      [lia | lia | apply before_optimizer_old; exact HX].
  - revert E. unfold LogisticRegression.fit.
    rewrite (augmentation X a) by exact HX.
    rewrite (bind_ok _ _ _ (augmented (add_bias (self s)) a) (augmented_state s a))
      by (apply deref_ok, augmented_state_lookup).
    unfold bind at 1, deref. rewrite Hy.
    intros [= _ <-]. apply augmented_state_old. exact HX.
Qed.

(** C7: no [fit] and no [predict] of either model changes the caller's
    feature matrix: the array [X] refers to holds after the call what it
    held before.  The methods work on a copy of [X], so this holds even
    with an optimizer that overwrites the design matrix it is handed; what
    is asked of the optimizer is that it writes to no array other than
    that design matrix, the initial weights and arrays of its own, and
    that it leaves the attributes of the estimator alone. *)
Theorem feature_matrix_not_mutated {K O} (oc : optimizer_class K O) (kw : K)
    (analytic : bool) (v : value) (s : state) (X y : loc) (a : ndarray) :
  writes_only_its_arguments oc -> leaves_instance_alone oc ->
  heap s !! X = Some a ->
  heap (snd (LinearRegression.fit X y analytic (Some oc) kw s)) !! X = Some a /\
  heap (snd (LinearRegression.fit (O := O) X y analytic None kw s)) !! X = Some a /\
  heap (snd (LinearRegression.predict X v s)) !! X = Some a /\
  heap (snd (LogisticRegression.fit X y oc kw s)) !! X = Some a /\
  heap (snd (LogisticRegression.predict X v s)) !! X = Some a.
Proof.
  intros Hwrites Halone HX. repeat split.
  - apply linear_fit_preserves; [split; assumption | exact HX].
  - apply linear_fit_preserves; [exact I | exact HX].
  - destruct (LinearRegression.predict X v s) as [r s'] eqn:E.
    exact (linear_predict_preserves X X v _ _ _ _ E HX).
  - apply logistic_fit_preserves; assumption.
  - destruct (LogisticRegression.predict X v s) as [r s'] eqn:E.
    exact (logistic_predict_preserves X X v _ _ _ _ E HX).
Qed.

Lemma in_place_writes_only_its_arguments : writes_only_its_arguments InPlace.
Proof.
  split.
  - intros kw s r s' l x [= _ <-] H. exact H.
  - intros o g A y w0 s r s' l x E HA _ H. revert E. cbn [opt_run InPlace].
    unfold bind at 1, deref.
    destruct (heap s !! A) as [a|] eqn:EA; [|intros [= _ <-]; exact H].
    unfold bind at 1, store. rewrite EA.
    assert (H' : <[A := np.zeros (nrows a) (ncols a)]> (heap s) !! l = Some x)
      by (rewrite list_lookup_insert_ne by congruence; exact H).
    destruct w0; intros [= _ <-]; exact H'.
Qed.

Lemma in_place_leaves_instance_alone : leaves_instance_alone InPlace.
Proof.
  split.
  - intros kw s r s' [= _ <-]. reflexivity.
  - intros o g A y w0 s r s'. cbn [opt_run InPlace].
    unfold bind at 1, deref.
    destruct (heap s !! A) as [a|] eqn:EA; [|intros [= _ <-]; reflexivity].
    unfold bind at 1, store. rewrite EA.
    destruct w0; intros [= _ <-]; reflexivity.
Qed.

(** With [add_bias=False] the optimizer is handed the copy of [X] itself,
    and [InPlace] overwrites it: [X] is as it was all the same. *)
Lemma feature_matrix_not_mutated_witness :
  heap (snd (LinearRegression.fit 0 1 false (Some InPlace) tt
               (State [X123; y246] (LinearRegression.__init__ false)))) !! 0
  = Some X123 /\
  heap (snd (LinearRegression.fit (O := list loc) 0 1 false None tt
               (State [X123; y246] (LinearRegression.__init__ false)))) !! 0
  = Some X123 /\
  heap (snd (LinearRegression.predict 0 VNone
               (State [X123; y246] (LinearRegression.__init__ false)))) !! 0
  = Some X123 /\
  heap (snd (LogisticRegression.fit 0 1 InPlace tt
               (State [X123; y246] (LinearRegression.__init__ false)))) !! 0
  = Some X123 /\
  heap (snd (LogisticRegression.predict 0 VNone
               (State [X123; y246] (LinearRegression.__init__ false)))) !! 0
  = Some X123.
Proof.
  apply (feature_matrix_not_mutated InPlace tt false VNone
           (State [X123; y246] (LinearRegression.__init__ false)) 0 1 X123).
  - exact in_place_writes_only_its_arguments.
  - exact in_place_leaves_instance_alone.
  - reflexivity.
Defined.

(** The design matrix [InPlace] was handed is the copy, at location 2,
    and it was overwritten. *)
Example in_place_overwrites_the_copy :
  heap (snd (LinearRegression.fit 0 1 false (Some InPlace) tt
               (State [X123; y246] (LinearRegression.__init__ false)))) !! 2
  = Some (NDArray 1 [[0]; [0]; [0]]%R).
Proof. reflexivity. Qed.

(** ** The analytic fit on a line *)

Section AnalyticFit.

Local Open Scope R_scope.

(** The normal equations on the points (1, 2), (2, 4), (3, 6) with a bias
    column: intercept 0 and slope 2. *)
Lemma analytic_fit_line :
  LinearRegression.analytic_fit (augmented true X123) y246
  = ok (NDArray 1 [[0]; [2]]).
Proof.
  unfold LinearRegression.analytic_fit. cbn.
  destruct (Req_dec_T _ _) as [E|_]; [exfalso; lra|].
  cbn. unfold build. cbn. unfold ok.
  repeat f_equal; lra.
Qed.

(** The matrix [np.linalg.inv] returns there is the inverse of [XtX]. *)
Lemma inv_line :
  exists XTX XTX_inv,
    np.dot (np.transpose (augmented true X123)) (augmented true X123) = ok XTX /\
    np.inv XTX = ok XTX_inv /\
    np.dot XTX_inv XTX = ok (NDArray 2 [[1; 0]; [0; 1]]).
Proof.
  eexists. eexists. split; [reflexivity|].
  cbn. destruct (Req_dec_T _ _) as [E|_]; [exfalso; lra|].
  split; [reflexivity|].
  cbn. unfold build. cbn. unfold ok.
  repeat f_equal; lra.
Qed.


End AnalyticFit.

(** ** The gradient of the squared error *)

Section Gradient.

Local Open Scope R_scope.

Lemma dot_ok (A B : ndarray) :
  ncols A = nrows B ->
  np.dot A B
  = ok (build (nrows A) (ncols B)
          (fun i j => bigsum (ncols A) (fun k => item A i k * item B k j))).
Proof. intros H. unfold np.dot. rewrite H, Nat.eqb_refl. reflexivity. Qed.

Lemma sum_build r c g : np.sum (build r c g) = bigsum r (fun i => bigsum c (g i)).
Proof. unfold np.sum, build, bigsum. cbn [rows]. rewrite map_map. reflexivity. Qed.

Lemma bigsum_scale (n : nat) (c : R) (f : nat -> R) :
  bigsum n (fun i => c * f i) = c * bigsum n f.
Proof.
  unfold bigsum. rewrite <- (Rmult_comm (rsum _)), <- rsum_map_scale.
  f_equal. apply map_ext. intros i. apply Rmult_comm.
Qed.

Lemma bigsum_plus (n : nat) (f g : nat -> R) :
  bigsum n (fun i => f i + g i) = bigsum n f + bigsum n g.
Proof. apply rsum_map_plus. Qed.

Lemma rsum_delta_out (lo n k : nat) (f : nat -> R) :
  (k < lo \/ lo + n <= k)%nat ->
  rsum (List.map (fun i => if Nat.eqb i k then f i else 0) (seq lo n)) = 0.
Proof.
  revert lo. induction n as [|n IH]; intros lo Hk; [reflexivity|].
  cbn [seq List.map]. rewrite rsum_cons, IH by lia.
  destruct (Nat.eqb_spec lo k); [lia | lra].
Qed.

Lemma rsum_delta_in (lo n k : nat) (f : nat -> R) :
  (lo <= k < lo + n)%nat ->
  rsum (List.map (fun i => if Nat.eqb i k then f i else 0) (seq lo n)) = f k.
Proof.
  revert lo. induction n as [|n IH]; intros lo Hk; [lia|].
  cbn [seq List.map]. rewrite rsum_cons.
  destruct (Nat.eqb_spec lo k) as [->|Hne].
  - rewrite rsum_delta_out by lia. lra.
  - rewrite IH by lia. lra.
Qed.

(** A sum whose terms vanish except at [k]. *)
Lemma bigsum_delta (n k : nat) (f : nat -> R) :
  (k < n)%nat -> bigsum n (fun i => if Nat.eqb i k then f i else 0) = f k.
Proof. intros Hk. apply rsum_delta_in. lia. Qed.

(** The cost in closed form: half the sum of the squared residuals. *)
Lemma cost_fn_closed_form (X y w : ndarray) :
  ncols X = nrows w -> nrows y = nrows X -> ncols y = ncols w ->
  LinearRegression.cost_fn X y w
  = ok (0.5 * bigsum (nrows X) (fun i => bigsum (ncols w) (fun b =>
            (item y i b - bigsum (ncols X) (fun l => item X i l * item w l b)) ^ 2))).
Proof.
  intros Hd Hn Hm. unfold LinearRegression.cost_fn.
  rewrite dot_ok by exact Hd. cbn [rbind ok]. unfold np.subtract.
  rewrite elementwise_same_shape by (rewrite ?nrows_build, ?ncols_build; assumption).
  cbn [rbind ok]. rewrite map_build, sum_build, Hn, Hm.
  do 2 f_equal. apply bigsum_ext. intros i Hi. apply bigsum_ext. intros b Hb.
  rewrite item_build by assumption. reflexivity.
Qed.

(** The gradient in closed form. *)
Lemma gradient_closed_form (X y w : ndarray) :
  ncols X = nrows w -> nrows y = nrows X -> ncols y = ncols w ->
  LinearRegression.gradient X y w
  = ok (build (ncols X) (ncols w) (fun j k =>
          bigsum (nrows X) (fun i =>
            item X i j * (bigsum (ncols X) (fun l => item X i l * item w l k)
                          - item y i k))
          / INR (nrows X))).
Proof.
  intros Hd Hn Hm. unfold LinearRegression.gradient.
  rewrite dot_ok by exact Hd. cbn [rbind ok]. unfold np.subtract.
  rewrite elementwise_same_shape
    by (rewrite ?nrows_build, ?ncols_build; symmetry + idtac; assumption).
  cbn [rbind ok]. rewrite nrows_build, ncols_build.
  rewrite dot_ok by (unfold np.transpose; rewrite nrows_build, ncols_build; reflexivity).
  cbn [rbind ok]. rewrite map_build.
  unfold np.transpose at 1 2. rewrite nrows_build, !ncols_build.
  f_equal. apply build_ext. intros j k Hj Hk.
  f_equal. apply bigsum_ext. intros i Hi.
  unfold np.transpose. rewrite !item_build by assumption. reflexivity.
Qed.

(** The scores when entry [(j, k)] of [w] is shifted by [t]. *)
Lemma scores_shifted (X w : ndarray) (i b j k : nat) (t : R) :
  (j < ncols X)%nat -> ncols X = nrows w -> (b < ncols w)%nat ->
  bigsum (ncols X) (fun l => item X i l * item (shift_entry w j k t) l b)
  = bigsum (ncols X) (fun l => item X i l * item w l b)
    + (if Nat.eqb b k then item X i j * t else 0).
Proof.
  intros Hj Hd Hb.
  rewrite (bigsum_ext _ _
             (fun l => item X i l * item w l b
                       + (if Nat.eqb l j
                          then (if Nat.eqb b k then item X i l * t else 0)
                          else 0))).
  - rewrite bigsum_plus, bigsum_delta by exact Hj. reflexivity.
  - intros l Hl. unfold shift_entry. rewrite item_build by lia.
    destruct (Nat.eqb l j), (Nat.eqb b k); cbn [andb]; ring.
Qed.

Lemma derivable_pt_lim_ext (f g : R -> R) (x l : R) :
  (forall t, f t = g t) -> derivable_pt_lim f x l -> derivable_pt_lim g x l.
Proof.
  intros H D e He. destruct (D e He) as [d Hd]. exists d.
  intros h Hh Hlt. rewrite <- !H. apply Hd; assumption.
Qed.

Lemma derivable_pt_lim_value (f : R -> R) (x l l' : R) :
  l = l' -> derivable_pt_lim f x l -> derivable_pt_lim f x l'.
Proof. intros <- H. exact H. Qed.

Lemma derivable_pt_lim_rsum {A} (l : list A) (f : A -> R -> R) (f' : A -> R) (x : R) :
  (forall a, In a l -> derivable_pt_lim (f a) x (f' a)) ->
  derivable_pt_lim (fun t => rsum (List.map (fun a => f a t) l)) x
    (rsum (List.map f' l)).
Proof.
  induction l as [|a l IH]; intros H; cbn [List.map].
  - apply (derivable_pt_lim_const 0).
  - apply (derivable_pt_lim_ext (fun t => f a t + rsum (List.map (fun a => f a t) l))).
    + intros t. reflexivity.
    + rewrite rsum_cons.
      apply (derivable_pt_lim_plus (f a) (fun t => rsum (List.map (fun a => f a t) l))).
      * apply H. left. reflexivity.
      * apply IH. intros a' Ha'. apply H. right. exact Ha'.
Qed.

Lemma derivable_pt_lim_bigsum (n : nat) (f : nat -> R -> R) (f' : nat -> R) (x : R) :
  (forall i, (i < n)%nat -> derivable_pt_lim (f i) x (f' i)) ->
  derivable_pt_lim (fun t => bigsum n (fun i => f i t)) x (bigsum n f').
Proof.
  intros H. apply derivable_pt_lim_rsum.
  intros i Hi. apply in_seq in Hi. apply H. lia.
Qed.

(** The derivative at 0 of a squared residual that is affine in [t]. *)
Lemma derivable_pt_lim_residual (p q c : R) :
  derivable_pt_lim (fun t => (p - (q + c * t)) ^ 2) 0 (-2 * (p - q) * c).
Proof.
  intros e He.
  assert (Hd : 0 < e / (c * c + 1)) by (apply Rdiv_lt_0_compat; nra).
  exists (mkposreal _ Hd). intros h Hh Hlt. cbn [pos] in Hlt.
  replace (((p - (q + c * (0 + h))) ^ 2 - (p - (q + c * 0)) ^ 2) / h
           - -2 * (p - q) * c) with (c * c * h) by (field; exact Hh).
  rewrite Rabs_mult, (Rabs_pos_eq (c * c)) by nra.
  apply (Rmult_lt_compat_r (c * c + 1)) in Hlt; [|nra].
  unfold Rdiv in Hlt. rewrite Rmult_assoc, Rinv_l, Rmult_1_r in Hlt by nra.
  pose proof (Rabs_pos h). nra.
Qed.

(** The cost along the line on which entry [(j, k)] of [w] moves. *)
Lemma cost_value_shifted (X y w : ndarray) (j k : nat) (t : R) :
  ncols X = nrows w -> nrows y = nrows X -> ncols y = ncols w ->
  (j < ncols X)%nat ->
  cost_value X y (shift_entry w j k t)
  = 0.5 * bigsum (nrows X) (fun i => bigsum (ncols w) (fun b =>
      (item y i b
       - (bigsum (ncols X) (fun l => item X i l * item w l b)
          + (if Nat.eqb b k then item X i j else 0) * t)) ^ 2)).
Proof.
  intros Hd Hn Hm Hj. unfold cost_value.
  rewrite cost_fn_closed_form
    by (unfold shift_entry; rewrite ?nrows_build, ?ncols_build; assumption).
  unfold shift_entry at 1. rewrite ncols_build. f_equal.
  apply bigsum_ext. intros i Hi. apply bigsum_ext. intros b Hb.
  rewrite scores_shifted by assumption.
  destruct (Nat.eqb b k); f_equal; ring.
Qed.

(** C3: for [X] with [n] rows, [d] columns, [w] with [d] rows and [y] of
    the shape of [X.w], [LinearRegression.gradient] is [Xt(X.w - y) / n],
    [cost_fn] is half the sum of the squared residuals, and each entry of
    the gradient is the partial derivative, with respect to the same entry
    of [w], of [cost_fn / n]. *)
Theorem gradient_is_derivative_of_cost (X y w : ndarray) :
  ncols X = nrows w -> nrows y = nrows X -> ncols y = ncols w ->
  (0 < nrows X)%nat ->
  exists G c,
    LinearRegression.gradient X y w = ok G /\
    LinearRegression.cost_fn X y w = ok c /\
    shape G = (nrows w, ncols w) /\
    c = 0.5 * bigsum (nrows X) (fun i => bigsum (ncols w) (fun b =>
          (item y i b - bigsum (ncols X) (fun l => item X i l * item w l b)) ^ 2)) /\
    forall j k, (j < nrows w)%nat -> (k < ncols w)%nat ->
      item G j k
      = bigsum (nrows X) (fun i =>
          item X i j * (bigsum (ncols X) (fun l => item X i l * item w l k)
                        - item y i k))
        / INR (nrows X) /\
      derivable_pt_lim
        (fun t => cost_value X y (shift_entry w j k t) / INR (nrows X)) 0
        (item G j k).
Proof.
  intros Hd Hn Hm Hpos. eexists. eexists.
  split; [apply gradient_closed_form; assumption|].
  split; [apply cost_fn_closed_form; assumption|].
  split; [unfold shape; rewrite nrows_build, ncols_build, Hd; reflexivity|].
  split; [reflexivity|].
  intros j k Hj Hk. rewrite item_build by lia.
  split; [reflexivity|].
  set (S := fun i b => bigsum (ncols X) (fun l => item X i l * item w l b)).
  apply (derivable_pt_lim_ext
           (fun t => (/ INR (nrows X) * 0.5)
                     * bigsum (nrows X) (fun i => bigsum (ncols w) (fun b =>
                         (item y i b
                          - (S i b + (if Nat.eqb b k then item X i j else 0) * t)) ^ 2)))).
  { intros t. rewrite cost_value_shifted by (assumption || lia).
    unfold S, Rdiv. ring. }
  apply (derivable_pt_lim_value _ _
           ((/ INR (nrows X) * 0.5)
            * bigsum (nrows X) (fun i => bigsum (ncols w) (fun b =>
                -2 * (item y i b - S i b) * (if Nat.eqb b k then item X i j else 0))))).
  - unfold Rdiv. rewrite (Rmult_comm (bigsum _ _)), Rmult_assoc. f_equal.
    rewrite <- bigsum_scale. apply bigsum_ext. intros i Hi.
    rewrite (bigsum_ext _ _
               (fun b => if Nat.eqb b k
                         then -2 * (item y i b - S i b) * item X i j else 0)).
    + rewrite bigsum_delta by exact Hk. unfold S. lra.
    + intros b Hb. destruct (Nat.eqb b k); ring.
  - refine (derivable_pt_lim_scal
              (fun t => bigsum (nrows X) (fun i => bigsum (ncols w) (fun b =>
                 (item y i b
                  - (S i b + (if Nat.eqb b k then item X i j else 0) * t)) ^ 2)))
              (/ INR (nrows X) * 0.5) 0 _ _).
    apply (derivable_pt_lim_bigsum (nrows X)
             (fun i t => bigsum (ncols w) (fun b =>
                (item y i b
                 - (S i b + (if Nat.eqb b k then item X i j else 0) * t)) ^ 2))).
    intros i Hi.
    apply (derivable_pt_lim_bigsum (ncols w)
             (fun b t =>
                (item y i b
                 - (S i b + (if Nat.eqb b k then item X i j else 0) * t)) ^ 2)).
    intros b Hb. apply derivable_pt_lim_residual.
Qed.

End Gradient.

Section GradientExamples.

Local Open Scope R_scope.

Lemma gradient_is_derivative_of_cost_witness :
  exists G c,
    LinearRegression.gradient A123 y246 w00 = ok G /\
    LinearRegression.cost_fn A123 y246 w00 = ok c /\
    shape G = (nrows w00, ncols w00) /\
    c = 0.5 * bigsum (nrows A123) (fun i => bigsum (ncols w00) (fun b =>
          (item y246 i b
           - bigsum (ncols A123) (fun l => item A123 i l * item w00 l b)) ^ 2)) /\
    forall j k, (j < nrows w00)%nat -> (k < ncols w00)%nat ->
      item G j k
      = bigsum (nrows A123) (fun i =>
          item A123 i j
          * (bigsum (ncols A123) (fun l => item A123 i l * item w00 l k)
             - item y246 i k))
        / INR (nrows A123) /\
      derivable_pt_lim
        (fun t => cost_value A123 y246 (shift_entry w00 j k t) / INR (nrows A123)) 0
        (item G j k).
Proof.
  apply (gradient_is_derivative_of_cost A123 y246 w00).
  - reflexivity.
  - reflexivity.
  - reflexivity.
  - cbn. lia.
Defined.

(** At [w = 0] on the three points of the line, the cost is 28 and the
    gradient is [[-4], [-28/3]]. *)
Example gradient_at_zero :
  LinearRegression.cost_fn A123 y246 w00 = ok 28 /\
  LinearRegression.gradient A123 y246 w00 = ok (NDArray 1 [[-4]; [-28 / 3]]).
Proof.
  split.
  - cbn. unfold ok. f_equal. lra.
  - cbn. unfold build. cbn. unfold np.map. cbn. unfold ok. repeat f_equal; lra.
Qed.

End GradientExamples.

(** * Further properties of the code *)

(** ** [predict] reads and never writes *)

Lemma keeps_ret {A} (a : A) : keeps_instance (ret a).
Proof. intros s r s' [= _ <-]. reflexivity. Qed.

Lemma keeps_throw {A} e : keeps_instance (throw (A := A) e).
Proof. intros s r s' [= _ <-]. reflexivity. Qed.

Lemma keeps_lift {A} (r : result A) : keeps_instance (lift r).
Proof. intros s r' s' [= _ <-]. reflexivity. Qed.

Lemma keeps_deref l : keeps_instance (deref l).
Proof.
  intros s r s'. unfold deref.
  destruct (heap s !! l); intros [= _ <-]; reflexivity.
Qed.

Lemma keeps_new a : keeps_instance (new a).
Proof. intros s r s' [= _ <-]. reflexivity. Qed.

Lemma keeps_get_w : keeps_instance get_w.
Proof.
  intros s r s'. unfold get_w.
  destruct (w (self s)); intros [= _ <-]; reflexivity.
Qed.

Lemma keeps_get_add_bias : keeps_instance get_add_bias.
Proof. intros s r s' [= _ <-]. reflexivity. Qed.

Lemma keeps_py_assert b : keeps_instance (py_assert b).
Proof. destruct b; [apply keeps_ret | apply keeps_throw]. Qed.

Lemma keeps_as_array v : keeps_instance (as_array v).
Proof. destruct v; [apply keeps_throw | apply keeps_deref | apply keeps_throw]. Qed.

Lemma keeps_bind {A B} (m : M A) (k : A -> M B) :
  keeps_instance m -> (forall a, keeps_instance (k a)) -> keeps_instance (bind m k).
Proof.
  intros Hm Hk s r s'. unfold bind.
  destruct (m s) as [[e|a] s1] eqn:E.
  - intros [= _ <-]. exact (Hm _ _ _ E).
  - intros E'. rewrite (Hk a _ _ _ E'). exact (Hm _ _ _ E).
Qed.

Create HintDb keeps.

#[local] Hint Resolve keeps_ret keeps_throw keeps_lift keeps_deref keeps_new
  keeps_get_w keeps_get_add_bias keeps_py_assert keeps_as_array : keeps.

Ltac keeps_steps :=
  repeat first
    [ apply keeps_bind; [|intros ?]
    | match goal with
      | |- keeps_instance (if ?b then _ else _) => destruct b
      end
    | solve [auto with keeps] ].

Lemma keeps_np_copy X : keeps_instance (np_copy X).
Proof. unfold np_copy. keeps_steps. Qed.

Lemma keeps_prepend_ones A : keeps_instance (prepend_ones A).
Proof. unfold prepend_ones. keeps_steps. Qed.

Lemma keeps_np_dot A v : keeps_instance (np_dot A v).
Proof. unfold np_dot. keeps_steps. Qed.

Lemma keeps_predict_with A v : keeps_instance (LogisticRegression.predict_with A v).
Proof. unfold LogisticRegression.predict_with. keeps_steps. Qed.

#[local] Hint Resolve keeps_np_copy keeps_prepend_ones keeps_np_dot
  keeps_predict_with : keeps.

(** X1: [predict] of either model is read-only.  However the call ends,
    the attributes of the instance are what they were, and so is every
    array that existed: the stored weights, the override and the input
    are only read, and the prediction is a new array. *)
Theorem predict_is_read_only (X : loc) (v : value) (s : state) :
  (self (snd (LinearRegression.predict X v s)) = self s /\
   forall (l : loc) (x : ndarray),
     heap s !! l = Some x ->
     heap (snd (LinearRegression.predict X v s)) !! l = Some x) /\
  (self (snd (LogisticRegression.predict X v s)) = self s /\
   forall (l : loc) (x : ndarray),
     heap s !! l = Some x ->
     heap (snd (LogisticRegression.predict X v s)) !! l = Some x).
Proof.
  split.
  - destruct (LinearRegression.predict X v s) as [r s'] eqn:E. cbn [snd]. split.
    + revert s r s' E. change (keeps_instance (LinearRegression.predict X v)).
      unfold LinearRegression.predict. keeps_steps.
    + intros l x H. exact (linear_predict_preserves l X v _ _ _ _ E H).
  - destruct (LogisticRegression.predict X v s) as [r s'] eqn:E. cbn [snd]. split.
    + revert s r s' E. change (keeps_instance (LogisticRegression.predict X v)).
      unfold LogisticRegression.predict. keeps_steps.
    + intros l x H. exact (logistic_predict_preserves l X v _ _ _ _ E H).
Qed.

(** ** What [predict] computes *)

Section Predict.

Local Open Scope R_scope.

Lemma np_dot_ok (A lu : loc) (s : state) (a wu : ndarray) :
  heap s !! A = Some a -> heap s !! lu = Some wu -> ncols a = nrows wu ->
  np_dot A (VArray lu) s
  = (ok (length (heap s)),
     State (heap s
            ++ [build (nrows a) (ncols wu)
                  (fun i j => bigsum (ncols a) (fun k => item a i k * item wu k j))])
           (self s)).
Proof.
  intros HA Hu Hs. unfold np_dot.
  rewrite (bind_ok _ _ s a s) by (apply deref_ok; exact HA).
  rewrite (bind_ok _ _ s wu s) by (apply as_array_ok; exact Hu).
  unfold bind, lift, new. rewrite dot_ok by exact Hs. reflexivity.
Qed.

Lemma np_dot_mismatch (A lu : loc) (s : state) (a wu : ndarray) :
  heap s !! A = Some a -> heap s !! lu = Some wu -> ncols a <> nrows wu ->
  np_dot A (VArray lu) s = (raise ValueError, s).
Proof.
  intros HA Hu Hs. unfold np_dot.
  rewrite (bind_ok _ _ s a s) by (apply deref_ok; exact HA).
  rewrite (bind_ok _ _ s wu s) by (apply as_array_ok; exact Hu).
  unfold bind, lift, np.dot.
  destruct (Nat.eqb_spec (ncols a) (nrows wu)); [contradiction | reflexivity].
Qed.

Lemma bigsum_S (n : nat) (f : nat -> R) :
  bigsum (S n) f = f 0%nat + bigsum n (fun k => f (S k)).
Proof.
  unfold bigsum. cbn [seq List.map]. rewrite rsum_cons.
  rewrite <- seq_shift, map_map. reflexivity.
Qed.

Lemma item_augmented_bias (a : ndarray) (i : nat) :
  (i < nrows a)%nat -> item (augmented true a) i 0 = 1.
Proof.
  intros Hi. unfold item, augmented. cbn [rows].
  rewrite (nth_map_in _ _ _ _ []) by exact Hi. reflexivity.
Qed.

Lemma item_augmented_feature (a : ndarray) (i k : nat) :
  (i < nrows a)%nat -> item (augmented true a) i (S k) = item a i k.
Proof.
  intros Hi. unfold item, augmented. cbn [rows].
  rewrite (nth_map_in _ _ _ _ []) by exact Hi. reflexivity.
Qed.

(** The scores [A.w] entry by entry: intercept plus features times
    weights. *)
Lemma scores_linear_map (b : bool) (a wu : ndarray) (i j : nat) :
  (i < nrows a)%nat ->
  bigsum (ncols (augmented b a))
    (fun k => item (augmented b a) i k * item wu k j)
  = linear_map b a wu i j.
Proof.
  intros Hi. destruct b; [|reflexivity].
  unfold linear_map. cbn [augmented ncols Nat.add]. rewrite bigsum_S.
  change (NDArray (S (ncols a)) _) with (augmented true a).
  rewrite item_augmented_bias by exact Hi. rewrite Rmult_1_l. f_equal.
  apply bigsum_ext. intros k Hk.
  rewrite item_augmented_feature by exact Hi. reflexivity.
Qed.

Lemma linear_predict_fitted_body (X : loc) (v sw : value) (s : state) (a : ndarray) :
  heap s !! X = Some a -> w (self s) = Some sw -> is_not_None sw = true ->
  LinearRegression.predict X v s
  = np_dot (augmented_loc s) (weights_used v sw) (augmented_state s a).
Proof.
  intros HX Hw Hsw. unfold LinearRegression.predict.
  rewrite (bind_ok _ _ s sw s) by (unfold get_w; rewrite Hw; reflexivity).
  rewrite Hsw. unfold bind at 1, py_assert, ret. cbn beta iota.
  rewrite (augmentation X a) by exact HX.
  unfold weights_used. destruct (is_not_None v); [reflexivity|].
  rewrite (bind_ok _ _ _ sw (augmented_state s a))
    by (unfold get_w; cbn [self augmented_state]; rewrite Hw; reflexivity).
  reflexivity.
Qed.

(** X2: on a fitted [LinearRegression], [predict] returns a new array
    with a row per row of [X] and a column per column of the weights; its
    entry [(i, j)] is the intercept plus the features of row [i] times
    column [j] of the weights (no intercept without [add_bias]).  The
    weights are the override when one is given and the stored ones
    otherwise. *)
Theorem linear_predict_fitted (X lu : loc) (v sw : value) (s : state)
    (a wu : ndarray) :
  heap s !! X = Some a -> w (self s) = Some sw -> is_not_None sw = true ->
  weights_used v sw = VArray lu -> heap s !! lu = Some wu ->
  ncols (augmented (add_bias (self s)) a) = nrows wu ->
  exists l s' P,
    LinearRegression.predict X v s = (ok l, s') /\
    heap s !! l = None /\ heap s' !! l = Some P /\
    shape P = (nrows a, ncols wu) /\
    forall i j, (i < nrows a)%nat -> (j < ncols wu)%nat ->
      item P i j = linear_map (add_bias (self s)) a wu i j.
Proof.
  intros HX Hw Hsw Hu Hlu Hs.
  rewrite (linear_predict_fitted_body X v sw s a HX Hw Hsw), Hu.
  rewrite (np_dot_ok _ lu _ (augmented (add_bias (self s)) a) wu)
    by (apply augmented_state_lookup || (apply augmented_state_old; exact Hlu)
        || exact Hs).
  eexists. eexists. eexists. split; [reflexivity|].
  split; [|split; [|split]].
  - apply lookup_ge_None. unfold augmented_state. cbn [heap].
    rewrite length_app. lia.
  - cbn [heap]. apply lookup_fresh.
  - unfold shape. rewrite nrows_build, ncols_build, nrows_augmented. reflexivity.
  - intros i j Hi Hj. rewrite nrows_augmented.
    rewrite item_build by assumption. apply scores_linear_map. exact Hi.
Qed.

Lemma linear_predict_fitted_witness :
  exists l s' P,
    LinearRegression.predict 0%nat VNone fitted_line = (ok l, s') /\
    heap fitted_line !! l = None /\ heap s' !! l = Some P /\
    shape P = (nrows X4, ncols w02) /\
    forall i j, (i < nrows X4)%nat -> (j < ncols w02)%nat ->
      item P i j = linear_map (add_bias (self fitted_line)) X4 w02 i j.
Proof.
  apply (linear_predict_fitted 0%nat 1%nat VNone (VArray 1%nat) fitted_line X4 w02);
    reflexivity.
Defined.

Lemma logistic_predict_body (X : loc) (v sw : value) (s : state) (a : ndarray) :
  heap s !! X = Some a -> w (self s) = Some sw ->
  LogisticRegression.predict X v s
  = LogisticRegression.predict_with (augmented_loc s) (weights_used v sw)
      (augmented_state s a).
Proof.
  intros HX Hw. unfold LogisticRegression.predict.
  rewrite (augmentation X a) by exact HX.
  unfold weights_used. destruct (is_not_None v); [reflexivity|].
  rewrite (bind_ok _ _ _ sw (augmented_state s a))
    by (unfold get_w; cbn [self augmented_state]; rewrite Hw; reflexivity).
  reflexivity.
Qed.

(** X3: weights whose row count is not the column count of the design
    matrix make [predict] fail with the dimension error of the matrix
    product, for both models; the instance is left as it was. *)
Theorem predict_shape_mismatch (X lu : loc) (v sw : value) (s : state)
    (a wu : ndarray) :
  heap s !! X = Some a -> w (self s) = Some sw -> is_not_None sw = true ->
  weights_used v sw = VArray lu -> heap s !! lu = Some wu ->
  ncols (augmented (add_bias (self s)) a) <> nrows wu ->
  LinearRegression.predict X v s = (raise ValueError, augmented_state s a) /\
  LogisticRegression.predict X v s = (raise ValueError, augmented_state s a) /\
  self (augmented_state s a) = self s.
Proof.
  intros HX Hw Hsw Hu Hlu Hs. split; [|split; [|reflexivity]].
  - rewrite (linear_predict_fitted_body X v sw s a HX Hw Hsw), Hu.
    apply (np_dot_mismatch _ lu _ (augmented (add_bias (self s)) a) wu).
    + apply augmented_state_lookup.
    + apply augmented_state_old. exact Hlu.
    + exact Hs.
  - rewrite (logistic_predict_body X v sw s a HX Hw), Hu.
    unfold LogisticRegression.predict_with.
    rewrite (bind_ok _ _ _ (augmented (add_bias (self s)) a) (augmented_state s a))
      by (apply deref_ok, augmented_state_lookup).
    rewrite (bind_ok _ _ _ wu (augmented_state s a))
      by (apply as_array_ok, augmented_state_old; exact Hlu).
    unfold bind, lift, np.dot.
    destruct (Nat.eqb_spec (ncols (augmented (add_bias (self s)) a)) (nrows wu));
      [contradiction | reflexivity].
Qed.

(** The design matrix of [X4] has two columns; the override is [X4]
    itself, which has one row. *)
Lemma predict_shape_mismatch_witness :
  LinearRegression.predict 0%nat (VArray 0%nat) fitted_line
  = (raise ValueError, augmented_state fitted_line X4) /\
  LogisticRegression.predict 0%nat (VArray 0%nat) fitted_line
  = (raise ValueError, augmented_state fitted_line X4) /\
  self (augmented_state fitted_line X4) = self fitted_line.
Proof.
  apply (predict_shape_mismatch 0%nat 0%nat (VArray 0%nat) (VArray 1%nat) fitted_line X4 X4);
    try reflexivity.
  cbn. lia.
Defined.

End Predict.

(** ** [one_hot] after [softmax], and after itself *)

Section Winner.

Local Open Scope R_scope.








(** The [argmax] of a row of zeros with a one at [a] is [a]. *)
Lemma row_argmax_indicator (c a : nat) :
  (a < c)%nat ->
  np.row_argmax (List.map (fun j => if Nat.eqb j a then 1 else 0) (seq 0 c)) = a.
Proof.
  intros Ha.
  set (r := List.map (fun j => if Nat.eqb j a then 1 else 0) (seq 0 c)).
  assert (Hlen : length r = c) by apply length_map_seq.
  assert (Hnth : forall k, (k < c)%nat -> nth k r 0 = if Nat.eqb k a then 1 else 0).
  { intros k Hk. unfold r. rewrite (nth_map_seq _ 0 c k) by exact Hk. reflexivity. }
  assert (Hne : r <> []) by (intros E; rewrite E in Hlen; cbn in Hlen; lia).
  destruct (row_argmax_spec r Hne) as (Hlt & Hmax & _).
  rewrite Hlen in Hlt, Hmax. specialize (Hmax a Ha).
  rewrite (Hnth a Ha), Nat.eqb_refl, (Hnth _ Hlt) in Hmax.
  destruct (Nat.eqb_spec (np.row_argmax r) a) as [E|_]; [exact E | lra].
Qed.

(** X5: [one_hot] is idempotent: on an array with at least one column,
    applying it to its own result changes nothing. *)
Theorem one_hot_idempotent (Y : ndarray) :
  wf Y -> (0 < ncols Y)%nat ->
  (let? z := one_hot Y in one_hot z) = one_hot Y.
Proof.
  intros Hwf Hc. rewrite (one_hot_closed_form Y Hwf Hc). cbn [rbind ok].
  rewrite one_hot_closed_form by (apply wf_build || exact Hc).
  rewrite nrows_build, ncols_build. f_equal.
  apply build_ext. intros i j Hi Hj.
  rewrite row_build by exact Hi.
  assert (Hrow : length (row Y i) = ncols Y) by (apply wf_row_length; assumption).
  assert (Hne : row Y i <> []) by (intros E; rewrite E in Hrow; cbn in Hrow; lia).
  destruct (row_argmax_spec (row Y i) Hne) as (Hlt & _).
  rewrite row_argmax_indicator by lia. reflexivity.
Qed.

Lemma one_hot_idempotent_witness :
  (let? z := one_hot (NDArray 2 [[0.5; 0.5]; [0.2; 0.8]]) in one_hot z)
  = one_hot (NDArray 2 [[0.5; 0.5]; [0.2; 0.8]]).
Proof.
  apply (one_hot_idempotent (NDArray 2 [[0.5; 0.5]; [0.2; 0.8]])).
  - apply wfb_wf. reflexivity.
  - cbn. lia.
Defined.

End Winner.

(** ** The class [LogisticRegression.predict] picks *)

Section PredictedClass.

Local Open Scope R_scope.




End PredictedClass.

(** ** [softmax]: range and shifts *)

Section SoftmaxRange.

Local Open Scope R_scope.












End SoftmaxRange.

(** ** The squared error at and away from a perfect fit *)

Section SquaredError.

Local Open Scope R_scope.

Lemma rsum_map_le {A} (f g : A -> R) (l : list A) :
  (forall x, In x l -> f x <= g x) -> rsum (List.map f l) <= rsum (List.map g l).
Proof.
  induction l as [|x l IH]; intros H; cbn [List.map]; [cbn; lra|].
  rewrite !rsum_cons.
  pose proof (H x (or_introl eq_refl)).
  assert (rsum (List.map f l) <= rsum (List.map g l))
    by (apply IH; intros y Hy; apply H; right; exact Hy).
  lra.
Qed.

Lemma bigsum_le (n : nat) (f g : nat -> R) :
  (forall i, (i < n)%nat -> f i <= g i) -> bigsum n f <= bigsum n g.
Proof.
  intros H. apply rsum_map_le. intros i Hi. apply in_seq in Hi. apply H. lia.
Qed.

Lemma bigsum_zero (n : nat) : bigsum n (fun _ => 0) = 0.
Proof.
  unfold bigsum. induction (seq 0 n) as [|x l IH]; cbn [List.map]; [reflexivity|].
  rewrite rsum_cons, IH. lra.
Qed.






(** X10: at weights that reproduce every target, the gradient of
    [LinearRegression] is the zero matrix. *)
Theorem gradient_at_perfect_fit (X y w : ndarray) :
  ncols X = nrows w -> nrows y = nrows X -> ncols y = ncols w ->
  (0 < nrows X)%nat ->
  (forall i b, (i < nrows X)%nat -> (b < ncols w)%nat ->
     bigsum (ncols X) (fun l => item X i l * item w l b) = item y i b) ->
  LinearRegression.gradient X y w = ok (np.zeros (ncols X) (ncols w)).
Proof.
  intros Hd Hn Hm Hpos Hfit.
  rewrite gradient_closed_form by assumption. f_equal.
  apply build_ext. intros j k Hj Hk.
  rewrite (bigsum_ext _ _ (fun _ => 0)).
  - rewrite bigsum_zero. unfold Rdiv. ring.
  - intros i Hi. rewrite (Hfit i k Hi Hk). ring.
Qed.

Lemma gradient_at_perfect_fit_witness :
  LinearRegression.gradient A123 y246 w02 = ok (np.zeros (ncols A123) (ncols w02)).
Proof.
  apply (gradient_at_perfect_fit A123 y246 w02); try reflexivity.
  - cbn. lia.
  - intros i b Hi Hb. cbn in Hi, Hb.
    destruct b as [|b]; [|lia].
    destruct i as [|[|[|i]]]; [| | |lia]; cbn; lra.
Defined.

End SquaredError.

(** ** The negative log-likelihood *)

Section LogLikelihood.

Local Open Scope R_scope.

Lemma max1_build r c g :
  (0 < c)%nat ->
  np.max1 (build r c g)
  = ok (build r 1 (fun i _ => np.row_max (List.map (g i) (seq 0 c)))).
Proof.
  intros Hc. unfold np.max1. cbn [ncols build].
  destruct (Nat.eqb_spec c 0) as [E|_]; [lia|].
  unfold build. cbn [rows]. rewrite map_map. reflexivity.
Qed.

(** [LogisticRegression.cost_fn] in closed form: for each sample the
    log-sum-exp of its scores, computed around their maximum, less the
    scores weighted by the targets. *)
Lemma logistic_cost_closed_form (X y w : ndarray) :
  ncols X = nrows w -> nrows y = nrows X -> ncols y = ncols w ->
  (0 < ncols w)%nat ->
  let z := fun i b => bigsum (ncols X) (fun l => item X i l * item w l b) in
  let m := fun i => np.row_max (List.map (z i) (seq 0 (ncols w))) in
  LogisticRegression.cost_fn X y w
  = ok (- bigsum (nrows X) (fun i => bigsum (ncols w) (fun k => item y i k * z i k))
        + bigsum (nrows X) (fun i =>
            m i + ln (bigsum (ncols w) (fun b => exp (z i b - m i))) + 0)).
Proof.
  intros Hd Hn Hm Hc z m. unfold LogisticRegression.cost_fn.
  rewrite dot_ok by exact Hd. cbn [rbind ok]. fold z.
  rewrite max1_build by exact Hc. cbn [rbind ok]. fold m.
  rewrite dot_ok
    by (unfold np.transpose; rewrite nrows_build, ncols_build; exact Hm).
  cbn [rbind ok]. unfold np.subtract.
  rewrite elementwise_column by (rewrite ?nrows_build, ?ncols_build; reflexivity).
  cbn [rbind ok]. rewrite nrows_build, ncols_build.
  unfold np.exp, np.log, np.add.
  rewrite map_build, sum1_build, map_build.
  rewrite elementwise_same_shape by (rewrite ?nrows_build, ?ncols_build; reflexivity).
  cbn [rbind ok]. rewrite nrows_build, ncols_build, sum_build.
  unfold np.trace, np.transpose.
  rewrite !nrows_build, !ncols_build, Hn, Nat.min_id.
  unfold ok. do 2 f_equal.
  - f_equal. apply bigsum_ext. intros i Hi.
    rewrite item_build by assumption. rewrite Hm.
    apply bigsum_ext. intros k Hk.
    rewrite !item_build by assumption. reflexivity.
  - apply bigsum_ext. intros i Hi. unfold bigsum at 1. cbn [seq List.map].
    rewrite rsum_cons. cbn [rsum fold_right].
    rewrite !item_build by (assumption || lia).
    do 3 f_equal. apply bigsum_ext. intros b Hb.
    rewrite !item_build by (assumption || lia). reflexivity.
Qed.

(** X11: [LogisticRegression.cost_fn] is never negative when every row of
    the targets is a distribution over the classes (entries that are not
    negative and add up to 1), as the rows of a one-hot matrix are. *)
Theorem logistic_cost_nonnegative (X y w : ndarray) :
  ncols X = nrows w -> nrows y = nrows X -> ncols y = ncols w ->
  (0 < ncols w)%nat ->
  (forall i, (i < nrows X)%nat ->
     (forall k, (k < ncols w)%nat -> 0 <= item y i k) /\
     bigsum (ncols w) (fun k => item y i k) = 1) ->
  exists c, LogisticRegression.cost_fn X y w = ok c /\ 0 <= c.
Proof.
  intros Hd Hn Hm Hc Hy. eexists.
  split; [apply logistic_cost_closed_form; assumption|].
  set (z := fun i b => bigsum (ncols X) (fun l => item X i l * item w l b)).
  set (m := fun i => np.row_max (List.map (z i) (seq 0 (ncols w)))).
  cbv zeta. fold z. fold m.
  assert (Hterm : forall i, (i < nrows X)%nat ->
            bigsum (ncols w) (fun k => item y i k * z i k)
            <= m i + ln (bigsum (ncols w) (fun b => exp (z i b - m i))) + 0).
  { intros i Hi. destruct (Hy i Hi) as [Hpos Hone].
    assert (Hne : List.map (z i) (seq 0 (ncols w)) <> []).
    { intros E. apply (f_equal (@length R)) in E.
      rewrite length_map_seq in E. cbn in E. lia. }
    destruct (row_max_spec _ Hne) as [Hin Hmax]. fold (m i) in Hin, Hmax.
    assert (Hle : bigsum (ncols w) (fun k => item y i k * z i k)
                  <= bigsum (ncols w) (fun k => item y i k * m i)).
    { apply bigsum_le. intros k Hk.
      apply Rmult_le_compat_l; [apply Hpos; exact Hk|].
      apply Hmax. apply in_map. apply in_seq. lia. }
    assert (Hsum : bigsum (ncols w) (fun k => item y i k * m i) = m i).
    { unfold bigsum in Hone |- *. rewrite rsum_map_scale.
      match goal with
      | |- ?a * _ = _ => replace a with 1 by (symmetry; exact Hone)
      end.
      ring. }
    assert (Hge1 : 1 <= bigsum (ncols w) (fun b => exp (z i b - m i))).
    { apply in_map_iff in Hin. destruct Hin as (k & Hk & Hin).
      pose proof (rsum_map_ge_term (fun b => exp (z i b - m i))
                    (seq 0 (ncols w)) k) as H.
      cbv beta in H. rewrite Hk, Rminus_diag, exp_0 in H. apply H.
      - intros b. left. apply exp_pos.
      - exact Hin. }
    assert (Hln : 0 <= ln (bigsum (ncols w) (fun b => exp (z i b - m i)))).
    { rewrite <- ln_1. destruct Hge1 as [Hlt|Heq].
      - left. apply ln_increasing; [lra | exact Hlt].
      - rewrite <- Heq. lra. }
    lra. }
  pose proof (bigsum_le _ _ _ Hterm). lra.
Qed.

Lemma logistic_cost_nonnegative_witness :
  exists c, LogisticRegression.cost_fn A123 y_classes W_swap = ok c /\ 0 <= c.
Proof.
  apply (logistic_cost_nonnegative A123 y_classes W_swap); try reflexivity.
  - cbn. lia.
  - intros i Hi. cbn in Hi.
    destruct i as [|[|[|i]]]; [| | |lia];
      (split; [intros k Hk; cbn in Hk; destruct k as [|[|k]]; [| |lia]; cbn; lra
              | cbn; lra]).
Defined.

End LogLikelihood.

(** ** The paths of [fit] *)

Section FitPaths.

Local Open Scope R_scope.

(** X12: with [analytic_fit=True], [LinearRegression.fit] ignores the
    optimizer class; it solves the normal equations on the design matrix.
    When the solution exists it becomes a new array, which is both stored
    in [w] and returned (one object, not a copy); when the solution fails,
    that exception is the outcome and the instance is as it was. *)
Theorem analytic_path {K O} (ocopt : option (optimizer_class K O)) (kw : K)
    (s : state) (X y : loc) (a yv : ndarray) :
  heap s !! X = Some a -> heap s !! y = Some yv ->
  LinearRegression.fit X y true ocopt kw s
  = LinearRegression.fit (O := O) X y true None kw s /\
  match LinearRegression.analytic_fit (augmented (add_bias (self s)) a) yv with
  | inr wv =>
      exists l s',
        LinearRegression.fit X y true ocopt kw s = (ok (VArray l), s') /\
        w (self s') = Some (VArray l) /\
        add_bias (self s') = add_bias (self s) /\
        heap s !! l = None /\ heap s' !! l = Some wv
  | inl e =>
      LinearRegression.fit X y true ocopt kw s = (raise e, augmented_state s a)
  end.
Proof.
  intros HX Hy. split; [reflexivity|].
  unfold LinearRegression.fit.
  rewrite (augmentation X a) by exact HX.
  rewrite (bind_ok _ _ _ (augmented (add_bias (self s)) a) (augmented_state s a))
    by (apply deref_ok, augmented_state_lookup).
  rewrite (bind_ok _ _ _ yv (augmented_state s a))
    by (apply deref_ok, augmented_state_old; exact Hy).
  unfold bind at 1, lift.
  destruct (LinearRegression.analytic_fit _ yv) as [e|wv]; [reflexivity|].
  eexists. eexists. split; [reflexivity|]. cbn [with_w self heap add_bias].
  split; [reflexivity|]. split; [reflexivity|]. split.
  - apply lookup_ge_None. unfold augmented_state. cbn [heap].
    rewrite length_app. lia.
  - apply lookup_fresh.
Qed.

Lemma analytic_path_witness :
  LinearRegression.fit 0%nat 1%nat true (Some Failing) tt
    (State [X123; y246] (LinearRegression.__init__ true))
  = LinearRegression.fit (O := unit) 0%nat 1%nat true None tt
      (State [X123; y246] (LinearRegression.__init__ true)) /\
  match LinearRegression.analytic_fit
          (augmented (add_bias (LinearRegression.__init__ true)) X123) y246 with
  | inr wv =>
      exists l s',
        LinearRegression.fit 0%nat 1%nat true (Some Failing) tt
          (State [X123; y246] (LinearRegression.__init__ true))
        = (ok (VArray l), s') /\
        w (self s') = Some (VArray l) /\
        add_bias (self s') = true /\
        [X123; y246] !! l = None /\ heap s' !! l = Some wv
  | inl e =>
      LinearRegression.fit 0%nat 1%nat true (Some Failing) tt
        (State [X123; y246] (LinearRegression.__init__ true))
      = (raise e,
         augmented_state (State [X123; y246] (LinearRegression.__init__ true)) X123)
  end.
Proof.
  apply (analytic_path (Some Failing) tt
           (State [X123; y246] (LinearRegression.__init__ true))
           0%nat 1%nat X123 y246); reflexivity.
Defined.

(** X13: a gradient-based [fit] does not start from the weights the
    instance holds: whatever [w] is when [fit] is called, the call does
    and returns the same and leaves the same state.  The weights are set
    to zeros anew each time. *)
Theorem gradient_fit_restarts {K O} (oc : optimizer_class K O) (kw : K)
    (v : value) (s : state) (X y : loc) (a yv : ndarray) :
  heap s !! X = Some a -> heap s !! y = Some yv ->
  LinearRegression.fit X y false (Some oc) kw (with_w v s)
  = LinearRegression.fit X y false (Some oc) kw s /\
  LogisticRegression.fit X y oc kw (with_w v s)
  = LogisticRegression.fit X y oc kw s.
Proof.
  intros HX Hy. split.
  - rewrite (linear_fit_gradient_path oc kw (with_w v s) X y a HX).
    rewrite (linear_fit_gradient_path oc kw s X y a HX).
    reflexivity.
  - rewrite (logistic_fit_gradient_path oc kw (with_w v s) X y a yv HX
               (augmented_state_old (with_w v s) a y yv Hy)).
    rewrite (logistic_fit_gradient_path oc kw s X y a yv HX
               (augmented_state_old s a y yv Hy)).
    reflexivity.
Qed.

Lemma gradient_fit_restarts_witness :
  LinearRegression.fit 0%nat 1%nat false (Some GradientDescent) (0.1, 1%nat)
    (with_w (VArray 0%nat) (State [X123; y246] (LinearRegression.__init__ true)))
  = LinearRegression.fit 0%nat 1%nat false (Some GradientDescent) (0.1, 1%nat)
      (State [X123; y246] (LinearRegression.__init__ true)) /\
  LogisticRegression.fit 0%nat 1%nat GradientDescent (0.1, 1%nat)
    (with_w (VArray 0%nat) (State [X123; y246] (LinearRegression.__init__ true)))
  = LogisticRegression.fit 0%nat 1%nat GradientDescent (0.1, 1%nat)
      (State [X123; y246] (LinearRegression.__init__ true)).
Proof.
  apply (gradient_fit_restarts GradientDescent (0.1, 1%nat) (VArray 0%nat)
           (State [X123; y246] (LinearRegression.__init__ true))
           0%nat 1%nat X123 y246); reflexivity.
Defined.

Lemma linear_fit_analytic_body {K O} (ocopt : option (optimizer_class K O)) (kw : K)
    (s : state) (X y : loc) (a yv : ndarray) :
  heap s !! X = Some a -> heap s !! y = Some yv ->
  LinearRegression.fit X y true ocopt kw s
  = match LinearRegression.analytic_fit (augmented (add_bias (self s)) a) yv with
    | inr wv =>
        (ok (VArray (length (heap (augmented_state s a)))),
         with_w (VArray (length (heap (augmented_state s a))))
           (State (heap (augmented_state s a) ++ [wv]) (self s)))
    | inl e => (raise e, augmented_state s a)
    end.
Proof.
  intros HX Hy. unfold LinearRegression.fit.
  rewrite (augmentation X a) by exact HX.
  rewrite (bind_ok _ _ _ (augmented (add_bias (self s)) a) (augmented_state s a))
    by (apply deref_ok, augmented_state_lookup).
  rewrite (bind_ok _ _ _ yv (augmented_state s a))
    by (apply deref_ok, augmented_state_old; exact Hy).
  unfold bind at 1, lift.
  destruct (LinearRegression.analytic_fit _ yv) as [e|wv]; reflexivity.
Qed.







End FitPaths.

(** ** [fit] and its optimizer *)

Lemma bind_raise {A B} (m : M A) (k : A -> M B) s e s' :
  m s = (raise e, s') -> bind m k s = (raise e, s').
Proof. unfold bind. intros ->. reflexivity. Qed.

Lemma optimizer_phase_failures {K O} (oc : optimizer_class K O) (kw : K)
    (g : gradient_fn) (A y : loc) (s1 : state) (e : exn) :
  let phase :=
    bind (opt_new oc kw)
      (fun optimizer => bind get_w
         (fun w0 => bind (opt_run oc optimizer g A y w0)
            (fun r => bind (set_w (fst r))
               (fun _ => lift (opt_w_history oc (snd r)))))) in
  (forall s2, opt_new oc kw s1 = (raise e, s2) -> phase s1 = (raise e, s2)) /\
  (forall o s2 w0 s3,
      opt_new oc kw s1 = (ok o, s2) -> w (self s2) = Some w0 ->
      opt_run oc o g A y w0 s2 = (raise e, s3) -> phase s1 = (raise e, s3)) /\
  (forall o s2 w0 w_final o' s3,
      opt_new oc kw s1 = (ok o, s2) -> w (self s2) = Some w0 ->
      opt_run oc o g A y w0 s2 = (ok (w_final, o'), s3) ->
      opt_w_history oc o' = raise e ->
      phase s1 = (raise e, with_w w_final s3)).
Proof.
  intros phase. unfold phase. split; [|split].
  - intros s2 Hnew. apply bind_raise. exact Hnew.
  - intros o s2 w0 s3 Hnew Hw Hrun.
    rewrite (bind_ok _ _ _ o s2) by exact Hnew.
    rewrite (bind_ok _ _ _ w0 s2) by (unfold get_w; rewrite Hw; reflexivity).
    apply bind_raise. exact Hrun.
  - intros o s2 w0 w_final o' s3 Hnew Hw Hrun Hhist.
    rewrite (bind_ok _ _ _ o s2) by exact Hnew.
    rewrite (bind_ok _ _ _ w0 s2) by (unfold get_w; rewrite Hw; reflexivity).
    rewrite (bind_ok _ _ _ (w_final, o') s3) by exact Hrun.
    unfold bind, set_w, lift. cbn [fst snd]. rewrite Hhist. reflexivity.
Qed.

(** X15: [fit] catches nothing.  An exception raised by the optimizer's
    constructor or by [run] is the outcome of [fit], in the state the
    optimizer left; and when reading [w_history] raises after [run]
    returned, [fit] raises too, the final weights being stored in [w]
    already.  This holds for [LinearRegression.fit] on the gradient path
    and for [LogisticRegression.fit]. *)
Theorem optimizer_failures_propagate {K O} (oc : optimizer_class K O) (kw : K)
    (s : state) (X y : loc) (a yv : ndarray) (e : exn) :
  heap s !! X = Some a -> heap s !! y = Some yv ->
  ((forall s2,
       opt_new oc kw (before_optimizer s a 1) = (raise e, s2) ->
       LinearRegression.fit X y false (Some oc) kw s = (raise e, s2)) /\
   (forall o s2 w0 s3,
       opt_new oc kw (before_optimizer s a 1) = (ok o, s2) ->
       w (self s2) = Some w0 ->
       opt_run oc o LinearRegression.gradient (augmented_loc s) y w0 s2
       = (raise e, s3) ->
       LinearRegression.fit X y false (Some oc) kw s = (raise e, s3)) /\
   (forall o s2 w0 w_final o' s3,
       opt_new oc kw (before_optimizer s a 1) = (ok o, s2) ->
       w (self s2) = Some w0 ->
       opt_run oc o LinearRegression.gradient (augmented_loc s) y w0 s2
       = (ok (w_final, o'), s3) ->
       opt_w_history oc o' = raise e ->
       LinearRegression.fit X y false (Some oc) kw s
       = (raise e, with_w w_final s3))) /\
  ((forall s2,
       opt_new oc kw (before_optimizer s a (ncols yv)) = (raise e, s2) ->
       LogisticRegression.fit X y oc kw s = (raise e, s2)) /\
   (forall o s2 w0 s3,
       opt_new oc kw (before_optimizer s a (ncols yv)) = (ok o, s2) ->
       w (self s2) = Some w0 ->
       opt_run oc o LogisticRegression.gradient (augmented_loc s) y w0 s2
       = (raise e, s3) ->
       LogisticRegression.fit X y oc kw s = (raise e, s3)) /\
   (forall o s2 w0 w_final o' s3,
       opt_new oc kw (before_optimizer s a (ncols yv)) = (ok o, s2) ->
       w (self s2) = Some w0 ->
       opt_run oc o LogisticRegression.gradient (augmented_loc s) y w0 s2
       = (ok (w_final, o'), s3) ->
       opt_w_history oc o' = raise e ->
       LogisticRegression.fit X y oc kw s = (raise e, with_w w_final s3))).
Proof.
  intros HX Hy. split.
  - rewrite (linear_fit_gradient_path oc kw s X y a HX).
    apply optimizer_phase_failures.
  - rewrite (logistic_fit_gradient_path oc kw s X y a yv HX
               (augmented_state_old s a y yv Hy)).
    apply optimizer_phase_failures.
Qed.

Lemma optimizer_failures_propagate_witness :
  LinearRegression.fit 0 1 false (Some Failing) tt
    (State [X123; y246] (LinearRegression.__init__ true))
  = (raise RuntimeError,
     before_optimizer (State [X123; y246] (LinearRegression.__init__ true)) X123 1)
  /\ LogisticRegression.fit 0 1 Failing tt
       (State [X123; y_classes] (LogisticRegression.__init__ true))
     = (raise RuntimeError,
        before_optimizer (State [X123; y_classes] (LogisticRegression.__init__ true))
          X123 2).
Proof.
  split.
  - destruct (optimizer_failures_propagate Failing tt
                (State [X123; y246] (LinearRegression.__init__ true))
                0 1 X123 y246 RuntimeError eq_refl eq_refl) as [(_ & H & _) _].
    eapply (H tt); reflexivity.
  - destruct (optimizer_failures_propagate Failing tt
                (State [X123; y_classes] (LogisticRegression.__init__ true))
                0 1 X123 y_classes RuntimeError eq_refl eq_refl) as [_ (_ & H & _)].
    eapply (H tt); reflexivity.
Defined.

(** X16: what the optimizer is run on.  When its constructor succeeds
    (and, as any sensible one, leaves the estimator and the arrays that
    exist alone), [run] is called with the model's own [gradient], with a
    design matrix that is a new array holding [X] and its bias column,
    with the caller's [y], and with initial weights that are a new zero
    matrix with a row per column of the design matrix: one column for
    [LinearRegression], a column per column of [y] for
    [LogisticRegression]. *)
Theorem optimizer_inputs {K O} (oc : optimizer_class K O) (kw : K)
    (s : state) (X y : loc) (a yv : ndarray) :
  heap s !! X = Some a -> heap s !! y = Some yv ->
  writes_only_its_arguments oc -> leaves_instance_alone oc ->
  (forall o s2,
      opt_new oc kw (before_optimizer s a 1) = (ok o, s2) ->
      LinearRegression.fit X y false (Some oc) kw s
      = bind (opt_run oc o LinearRegression.gradient (augmented_loc s) y
                (VArray (initial_weights_loc s a)))
          (fun r => bind (set_w (fst r))
             (fun _ => lift (opt_w_history oc (snd r)))) s2 /\
      heap s2 !! augmented_loc s = Some (augmented (add_bias (self s)) a) /\
      heap s2 !! initial_weights_loc s a
      = Some (np.zeros (ncols (augmented (add_bias (self s)) a)) 1) /\
      heap s2 !! y = Some yv /\
      heap s !! augmented_loc s = None /\ heap s !! initial_weights_loc s a = None) /\
  (forall o s2,
      opt_new oc kw (before_optimizer s a (ncols yv)) = (ok o, s2) ->
      LogisticRegression.fit X y oc kw s
      = bind (opt_run oc o LogisticRegression.gradient (augmented_loc s) y
                (VArray (initial_weights_loc s a)))
          (fun r => bind (set_w (fst r))
             (fun _ => lift (opt_w_history oc (snd r)))) s2 /\
      heap s2 !! augmented_loc s = Some (augmented (add_bias (self s)) a) /\
      heap s2 !! initial_weights_loc s a
      = Some (np.zeros (ncols (augmented (add_bias (self s)) a)) (ncols yv)) /\
      heap s2 !! y = Some yv /\
      heap s !! augmented_loc s = None /\ heap s !! initial_weights_loc s a = None).
Proof.
  intros HX Hy [Wnew _] [Inew _].
  assert (Hfresh1 : heap s !! augmented_loc s = None)
    by (apply lookup_ge_None, augmented_loc_fresh).
  assert (Hfresh2 : heap s !! initial_weights_loc s a = None)
    by (apply lookup_ge_None; pose proof (initial_weights_loc_fresh s a); lia).
  split; intros o s2 Hnew.
  - split; [|repeat split; try assumption].
    + rewrite (linear_fit_gradient_path oc kw s X y a HX).
      rewrite (bind_ok _ _ _ o s2) by exact Hnew.
      rewrite (bind_ok _ _ _ (VArray (initial_weights_loc s a)) s2)
        by (unfold get_w; rewrite (Inew _ _ _ _ Hnew); reflexivity).
      reflexivity.
    + apply (Wnew _ _ _ _ _ _ Hnew), before_optimizer_design.
    + apply (Wnew _ _ _ _ _ _ Hnew), before_optimizer_weights.
    + apply (Wnew _ _ _ _ _ _ Hnew), before_optimizer_old. exact Hy.
  - split; [|repeat split; try assumption].
    + rewrite (logistic_fit_gradient_path oc kw s X y a yv HX
                 (augmented_state_old s a y yv Hy)).
      rewrite (bind_ok _ _ _ o s2) by exact Hnew.
      rewrite (bind_ok _ _ _ (VArray (initial_weights_loc s a)) s2)
        by (unfold get_w; rewrite (Inew _ _ _ _ Hnew); reflexivity).
      reflexivity.
    + apply (Wnew _ _ _ _ _ _ Hnew), before_optimizer_design.
    + apply (Wnew _ _ _ _ _ _ Hnew), before_optimizer_weights.
    + apply (Wnew _ _ _ _ _ _ Hnew), before_optimizer_old. exact Hy.
Qed.

Lemma optimizer_inputs_witness :
  LinearRegression.fit 0 1 false (Some InPlace) tt
    (State [X123; y246] (LinearRegression.__init__ true))
  = bind (opt_run InPlace [] LinearRegression.gradient 3 1 (VArray 4))
      (fun r => bind (set_w (fst r))
         (fun _ => lift (opt_w_history InPlace (snd r))))
      (before_optimizer (State [X123; y246] (LinearRegression.__init__ true)) X123 1)
  /\ heap (before_optimizer (State [X123; y246] (LinearRegression.__init__ true))
             X123 1) !! 3
     = Some (augmented true X123)
  /\ heap (before_optimizer (State [X123; y246] (LinearRegression.__init__ true))
             X123 1) !! 4
     = Some (np.zeros 2 1)
  /\ heap (before_optimizer (State [X123; y246] (LinearRegression.__init__ true))
             X123 1) !! 1
     = Some y246
  /\ [X123; y246] !! 3 = None /\ [X123; y246] !! 4 = None.
Proof.
  destruct (optimizer_inputs InPlace tt
              (State [X123; y246] (LinearRegression.__init__ true))
              0 1 X123 y246 eq_refl eq_refl
              in_place_writes_only_its_arguments in_place_leaves_instance_alone)
    as [H _].
  apply (H [] _ eq_refl).
Defined.

(** ** Shapes the numeric methods reject, and shapes they stretch *)

Section Shapes.

Local Open Scope R_scope.

Lemma dot_mismatch (A B : ndarray) :
  ncols A <> nrows B -> np.dot A B = raise ValueError.
Proof.
  intros H. unfold np.dot.
  destruct (Nat.eqb_spec (ncols A) (nrows B)); [contradiction | reflexivity].
Qed.

Lemma broadcast_dim_none (a b : nat) :
  a <> b -> a <> 1%nat -> b <> 1%nat -> np.broadcast_dim a b = None.
Proof.
  intros Hab Ha Hb. unfold np.broadcast_dim.
  destruct (Nat.eqb_spec a b); [contradiction|].
  destruct (Nat.eqb_spec a 1); [contradiction|].
  destruct (Nat.eqb_spec b 1); [contradiction | reflexivity].
Qed.

(** X17: the numeric methods check shapes only through the array
    operations they call.  Weights whose row count is not the column
    count of [X] make [cost_fn] and [gradient] of both models fail with
    the dimension error of the matrix product; and targets whose row
    count is neither that of [X] nor 1 (nor is [X] a single row) make
    them fail at the subtraction. *)
Theorem numeric_methods_reject (X y w : ndarray) :
  (ncols X <> nrows w ->
   LinearRegression.cost_fn X y w = raise ValueError /\
   LinearRegression.gradient X y w = raise ValueError /\
   LogisticRegression.cost_fn X y w = raise ValueError /\
   LogisticRegression.gradient X y w = raise ValueError) /\
  (ncols X = nrows w -> (0 < ncols w)%nat ->
   nrows y <> nrows X -> nrows y <> 1%nat -> nrows X <> 1%nat ->
   LinearRegression.cost_fn X y w = raise ValueError /\
   LinearRegression.gradient X y w = raise ValueError /\
   LogisticRegression.gradient X y w = raise ValueError).
Proof.
  split.
  - intros H.
    unfold LinearRegression.cost_fn, LinearRegression.gradient,
      LogisticRegression.cost_fn, LogisticRegression.gradient.
    rewrite dot_mismatch by exact H. repeat split; reflexivity.
  - intros Hd Hc Hy Hy1 Hx1.
    unfold LinearRegression.cost_fn, LinearRegression.gradient,
      LogisticRegression.gradient.
    rewrite dot_ok by exact Hd. cbn [rbind ok].
    rewrite softmax_closed_form by (apply wf_build || exact Hc). cbn [rbind ok].
    unfold np.subtract, np.elementwise. rewrite !nrows_build.
    rewrite (broadcast_dim_none (nrows y) (nrows X)) by assumption.
    rewrite (broadcast_dim_none (nrows X) (nrows y)) by (assumption || congruence).
    repeat split; reflexivity.
Qed.

Lemma numeric_methods_reject_witness :
  (LinearRegression.cost_fn X123 y246 w02 = raise ValueError /\
   LinearRegression.gradient X123 y246 w02 = raise ValueError /\
   LogisticRegression.cost_fn X123 y246 w02 = raise ValueError /\
   LogisticRegression.gradient X123 y246 w02 = raise ValueError) /\
  (LinearRegression.cost_fn A123 w02 w02 = raise ValueError /\
   LinearRegression.gradient A123 w02 w02 = raise ValueError /\
   LogisticRegression.gradient A123 w02 w02 = raise ValueError).
Proof.
  split.
  - apply (proj1 (numeric_methods_reject X123 y246 w02)). cbn. lia.
  - apply (proj2 (numeric_methods_reject A123 w02 w02)); cbn; lia.
Defined.



(** X19: with weights that have no column (no class at all),
    [LogisticRegression.gradient] and [cost_fn] fail: the maximum along
    an empty row does not exist. *)
Theorem logistic_without_classes (X y w : ndarray) :
  ncols X = nrows w -> ncols w = 0%nat ->
  LogisticRegression.gradient X y w = raise ValueError /\
  LogisticRegression.cost_fn X y w = raise ValueError.
Proof.
  intros Hd Hc.
  unfold LogisticRegression.gradient, LogisticRegression.cost_fn, softmax.
  rewrite dot_ok by exact Hd. cbn [rbind ok].
  unfold np.max1. rewrite ncols_build, Hc. split; reflexivity.
Qed.

Lemma logistic_without_classes_witness :
  LogisticRegression.gradient A123 y246 (NDArray 0 [[]; []]) = raise ValueError /\
  LogisticRegression.cost_fn A123 y246 (NDArray 0 [[]; []]) = raise ValueError.
Proof.
  apply (logistic_without_classes A123 y246 (NDArray 0 [[]; []])); reflexivity.
Defined.

End Shapes.

(** ** The analytic solution with two columns *)

Section TwoColumns.

Local Open Scope R_scope.











End TwoColumns.

(** ** From [fit] to [predict] *)

Section FitThenPredict.

Local Open Scope R_scope.

(** X22: the analytic [fit] followed by [predict].  When the normal
    equations on the design matrix of [X] have the solution [wv], [fit]
    stores it, and [predict] on any input [X'] whose design matrix has as
    many columns then returns the linear map of [X'] under [wv]:
    intercept plus features times weights. *)
Theorem analytic_fit_then_predict {K O} (ocopt : option (optimizer_class K O))
    (kw : K) (s : state) (X y X' : loc) (a yv a' wv : ndarray) :
  heap s !! X = Some a -> heap s !! y = Some yv -> heap s !! X' = Some a' ->
  LinearRegression.analytic_fit (augmented (add_bias (self s)) a) yv = ok wv ->
  ncols (augmented (add_bias (self s)) a') = nrows wv ->
  exists lw s1 lp s2 P,
    LinearRegression.fit X y true ocopt kw s = (ok (VArray lw), s1) /\
    LinearRegression.predict X' VNone s1 = (ok lp, s2) /\
    heap s2 !! lw = Some wv /\ heap s2 !! lp = Some P /\
    shape P = (nrows a', ncols wv) /\
    forall i j, (i < nrows a')%nat -> (j < ncols wv)%nat ->
      item P i j = linear_map (add_bias (self s)) a' wv i j.
Proof.
  intros HX Hy HX' Hfit Hs.
  set (lw := length (heap (augmented_state s a))).
  set (s1 := with_w (VArray lw) (State (heap (augmented_state s a) ++ [wv]) (self s))).
  assert (Hlw : heap s1 !! lw = Some wv) by (cbn [s1 with_w heap]; apply lookup_fresh).
  assert (HX1 : heap s1 !! X' = Some a').
  { cbn [s1 with_w heap]. apply lookup_alloc, augmented_state_old. exact HX'. }
  exists lw, s1. eexists. eexists. eexists.
  split.
  { rewrite (linear_fit_analytic_body ocopt kw s X y a yv HX Hy), Hfit.
    reflexivity. }
  split.
  { rewrite (linear_predict_fitted_body X' VNone (VArray lw) s1 a' HX1
               eq_refl eq_refl).
    cbn [weights_used is_not_None].
    apply (np_dot_ok _ lw _ (augmented (add_bias (self s1)) a') wv).
    - apply augmented_state_lookup.
    - apply augmented_state_old. exact Hlw.
    - exact Hs. }
  split; [|split; [|split]].
  - cbn [heap]. apply lookup_alloc, augmented_state_old. exact Hlw.
  - cbn [heap]. apply lookup_fresh.
  - unfold shape. rewrite nrows_build, ncols_build, nrows_augmented. reflexivity.
  - intros i j Hi Hj. rewrite nrows_augmented.
    rewrite item_build by assumption.
    apply (scores_linear_map (add_bias (self s)) a' wv i j Hi).
Qed.

Lemma analytic_fit_then_predict_witness :
  exists lw s1 lp s2 P,
    LinearRegression.fit (K := unit) (O := unit) 0%nat 1%nat true None tt
      (State [X123; y246; X4] (LinearRegression.__init__ true))
    = (ok (VArray lw), s1) /\
    LinearRegression.predict 2%nat VNone s1 = (ok lp, s2) /\
    heap s2 !! lw = Some w02 /\ heap s2 !! lp = Some P /\
    shape P = (nrows X4, ncols w02) /\
    forall i j, (i < nrows X4)%nat -> (j < ncols w02)%nat ->
      item P i j = linear_map true X4 w02 i j.
Proof.
  apply (analytic_fit_then_predict (K := unit) (O := unit) None tt
           (State [X123; y246; X4] (LinearRegression.__init__ true))
           0%nat 1%nat 2%nat X123 y246 X4 w02).
  - reflexivity.
  - reflexivity.
  - reflexivity.
  - exact analytic_fit_line.
  - reflexivity.
Defined.



End FitThenPredict.

(** ** Empty arrays *)

(** X24: on an array without columns, [one_hot] and [softmax] fail (there
    is no [argmax] and no maximum of an empty row), however many rows it
    has; on an array without rows that has columns, both return the empty
    array of the same shape. *)
Theorem helpers_on_empty_arrays (Y : ndarray) (c : nat) :
  (ncols Y = 0 -> one_hot Y = raise ValueError /\ softmax Y = raise ValueError) /\
  (0 < c ->
   one_hot (NDArray c []) = ok (NDArray c []) /\
   softmax (NDArray c []) = ok (NDArray c [])).
Proof.
  split.
  - intros H. unfold one_hot, softmax, np.argmax1, np.max1. rewrite H.
    split; reflexivity.
  - intros Hc. unfold one_hot, softmax, np.argmax1, np.max1. cbn [ncols].
    destruct (Nat.eqb_spec c 0) as [E|_]; [lia|]. cbn [rbind ok].
    split; [reflexivity|].
    unfold np.subtract, np.divide, np.elementwise. cbn.
    assert (H : np.broadcast_dim c 1 = Some c) by apply broadcast_dim_one.
    rewrite H. cbn. rewrite H. reflexivity.
Qed.

Lemma helpers_on_empty_arrays_witness :
  (one_hot (NDArray 0 [[]; []]) = raise ValueError /\
   softmax (NDArray 0 [[]; []]) = raise ValueError) /\
  (one_hot (NDArray 3 []) = ok (NDArray 3 []) /\
   softmax (NDArray 3 []) = ok (NDArray 3 [])).
Proof.
  split.
  - apply (proj1 (helpers_on_empty_arrays (NDArray 0 [[]; []]) 3)). reflexivity.
  - apply (proj2 (helpers_on_empty_arrays (NDArray 0 [[]; []]) 3)). lia.
Defined.
